(** * create_report.py: the normalisation pipeline and its count tables

    A shallow embedding of [src/create_report.py] (pandas 1.2.1, Python 3.7).

    Conventions of the embedding
    - A data-frame cell of an object column is [option string]: [Some s] is
      the Python [str] [s], [None] is the missing value (NaN / None).  All six
      columns are taken to be object columns from [read_csv] to the end of
      the run.  pandas gives another dtype to a column that holds no text at
      all (numbers only, or missing values only), and the [.str] accessor of
      lines 139 and 142 then raises; such frames are outside the embedding.
    - A character is a code point below 256; the classes [\w], [\s] follow
      Python's Unicode tables on that range.
    - A frame is a list of rows, each carrying its index label.
    - Exceptions are values of [exn]; code that can raise returns [result].
    - Calls into the plotting layer have no effect on the data and are left
      out, except the bare [dfp.plot] in front of the final summary, whose
      outcome is a parameter of [largest_project]. *)

From Stdlib Require Import Bool Arith NArith ZArith QArith Lia Lqa List.
From Stdlib Require Import Ascii String Permutation Sorted.
Import ListNotations.
Local Open Scope nat_scope.
Local Open Scope string_scope.
Local Open Scope list_scope.

(** ** Characters and the character classes of [re] *)

Module Chars.

Definition code (c : ascii) : N := N_of_ascii c.

Definition between (lo hi : N) (c : ascii) : bool :=
  ((lo <=? code c) && (code c <=? hi))%N.

Definition newline : ascii := ascii_of_N 10.

(** [[a-z]], [[A-Z]], [[0-9]] *)
Definition is_lower (c : ascii) : bool := between 97 122 c.
Definition is_upper (c : ascii) : bool := between 65 90 c.
Definition is_ascii_letter (c : ascii) : bool := is_lower c || is_upper c.
Definition is_ascii_digit (c : ascii) : bool := between 48 57 c.

(** [str.isalnum] on one character: ASCII letters and digits, and in the
    upper half the letters, the superscript digits and the vulgar
    fractions. *)
Definition is_alnum (c : ascii) : bool :=
  is_ascii_letter c || is_ascii_digit c
  || (code c =? 170)%N || (code c =? 178)%N || (code c =? 179)%N
  || (code c =? 181)%N || (code c =? 185)%N || (code c =? 186)%N
  || between 188 190 c
  || between 192 214 c || between 216 246 c || between 248 255 c.

(** [\w] and [\W] *)
Definition is_word (c : ascii) : bool := is_alnum c || Ascii.eqb c "_".
Definition is_nonword (c : ascii) : bool := negb (is_word c).

(** [\s], which is also what [str.strip()] removes *)
Definition is_space (c : ascii) : bool :=
  between 9 13 c || between 28 32 c || (code c =? 133)%N || (code c =? 160)%N.

(** [.] without DOTALL *)
Definition is_dot (c : ascii) : bool := negb (Ascii.eqb c newline).

End Chars.

(** ** A backtracking matcher for the fragment of [re] the script uses *)

Module Re.

Inductive regex : Type :=
| Lit (c : ascii)                          (* a literal character *)
| Cls (p : ascii -> bool)                  (* a class: [..], \W, \s, . *)
| Star (p : ascii -> bool)                 (* x*  (greedy) *)
| Plus (p : ascii -> bool)                 (* x+  (greedy) *)
| Rep (p : ascii -> bool) (lo hi : nat)    (* x{lo,hi} (greedy) *)
| Cat (r1 r2 : regex)
| Alt (r1 r2 : regex)                      (* r1|r2, left first *)
| Grp (r : regex)                          (* ( r ), no back-references *)
| Ahead (r : regex)                        (* (?= r ) *)
| Bol                                      (* ^ *)
| Eol.                                     (* $ *)

(** A continuation receives the offset reached and the text still unread,
    and answers with the text left after the whole match. *)
Definition cont : Type := nat -> string -> option string.

Definition orelse (a b : option string) : option string :=
  match a with Some _ => a | None => b end.

Definition one (p : ascii -> bool) (k : cont) : cont :=
  fun i s =>
    match s with
    | String c s' => if p c then k (S i) s' else None
    | EmptyString => None
    end.

(** greedy [p*]: take as many as possible, give back one at a time *)
Fixpoint star (p : ascii -> bool) (k : cont) (i : nat) (s : string)
  : option string :=
  match s with
  | String c s' =>
      if p c then orelse (star p k (S i) s') (k i s) else k i s
  | EmptyString => k i s
  end.

(** greedy [p{0,n}] *)
Fixpoint upto (p : ascii -> bool) (n : nat) (k : cont) (i : nat) (s : string)
  : option string :=
  match n with
  | O => k i s
  | S n' =>
      match s with
      | String c s' =>
          if p c then orelse (upto p n' k (S i) s') (k i s) else k i s
      | EmptyString => k i s
      end
  end.

(** exactly [n] times *)
Fixpoint exactly (p : ascii -> bool) (n : nat) (k : cont) : cont :=
  match n with
  | O => k
  | S n' => one p (exactly p n' k)
  end.

Definition at_end (s : string) : bool :=
  match s with
  | EmptyString => true
  | String c EmptyString => Ascii.eqb c Chars.newline
  | _ => false
  end.

Fixpoint run (r : regex) (k : cont) : cont :=
  match r with
  | Lit c => one (Ascii.eqb c) k
  | Cls p => one p k
  | Star p => star p k
  | Plus p => one p (star p k)
  | Rep p lo hi => exactly p lo (upto p (hi - lo) k)
  | Cat r1 r2 => run r1 (run r2 k)
  | Alt r1 r2 => fun i s => orelse (run r1 k i s) (run r2 k i s)
  | Grp r1 => run r1 k
  | Ahead r1 =>
      fun i s =>
        match run r1 (fun _ rest => Some rest) i s with
        | Some _ => k i s
        | None => None
        end
  | Bol => fun i s => if Nat.eqb i 0 then k i s else None
  | Eol => fun i s => if at_end s then k i s else None
  end.

(** the last continuation: hand back what is left *)
Definition rest_of : cont := fun _ rest => Some rest.

(** [rx.match] at offset [i]: the text left after the match *)
Definition match_at (r : regex) (i : nat) (s : string) : option string :=
  run r (fun _ rest => Some rest) i s.

(** [rx.search(s) is not None] *)
Fixpoint search_from (r : regex) (i : nat) (s : string) : bool :=
  match match_at r i s with
  | Some _ => true
  | None =>
      match s with
      | String _ s' => search_from r (S i) s'
      | EmptyString => false
      end
  end.

Definition search (r : regex) (s : string) : bool := search_from r 0 s.

(** [rx.sub(repl, s)] with a literal replacement: leftmost matches, not
    overlapping; an empty match is replaced and one character copied. *)
Fixpoint sub_from (fuel : nat) (r : regex) (repl : string) (i : nat)
  (s : string) : string :=
  match fuel with
  | O => s
  | S fuel' =>
      match match_at r i s with
      | Some rest =>
          if Nat.ltb (String.length rest) (String.length s)
          then repl ++
               sub_from fuel' r repl
                 (i + (String.length s - String.length rest)) rest
          else match s with
               | String c s' =>
                   repl ++ String c (sub_from fuel' r repl (S i) s')
               | EmptyString => repl
               end
      | None =>
          match s with
          | String c s' => String c (sub_from fuel' r repl (S i) s')
          | EmptyString => EmptyString
          end
      end
  end.

Definition sub (r : regex) (repl : string) (s : string) : string :=
  sub_from (S (String.length s)) r repl 0 s.

(** the text of a literal word as a pattern *)
Fixpoint word (w : string) (tail : regex) : regex :=
  match w with
  | EmptyString => tail
  | String c w' => Cat (Lit c) (word w' tail)
  end.

End Re.

(** ** The patterns of the script *)

Module Patterns.
Import Re.

(** [[a-zA-Z\W]] *)
Definition letter_or_nonword (c : ascii) : bool :=
  Chars.is_ascii_letter c || Chars.is_nonword c.

(** [na_regex = r'(?=((n|N).*(a|A)))(?=^[a-zA-Z\W]{0,4}$)'] *)
Definition na_regex : regex :=
  Cat
    (Ahead (Grp (Cat (Grp (Alt (Lit "n") (Lit "N")))
                     (Cat (Star Chars.is_dot)
                          (Grp (Alt (Lit "a") (Lit "A")))))))
    (Ahead (Cat Bol (Cat (Rep letter_or_nonword 0 4) Eol))).

(** the tail [.*(a|A)] of its first look-ahead, as a continuation *)
Definition then_a : cont :=
  star Chars.is_dot (run (Grp (Alt (Lit "a") (Lit "A"))) rest_of).

(** [['TBC','various','TBA','Multiple']] *)
Definition placeholders : list string :=
  ["TBC"; "various"; "TBA"; "Multiple"].

(** [r'(^\s*$)'], [r'(^0*$)'], [r'(^-*$)'], [r'(^\W$)'] *)
Definition blank_regex : regex :=
  Grp (Cat Bol (Cat (Star Chars.is_space) Eol)).
Definition zeros_regex : regex :=
  Grp (Cat Bol (Cat (Star (Ascii.eqb "0")) Eol)).
Definition dashes_regex : regex :=
  Grp (Cat Bol (Cat (Star (Ascii.eqb "-")) Eol)).
Definition symbol_regex : regex :=
  Grp (Cat Bol (Cat (Cls Chars.is_nonword) Eol)).

(** [r'Services*(.+)'] *)
Definition services_regex : regex :=
  word "Service" (Cat (Star (Ascii.eqb "s")) (Grp (Plus Chars.is_dot))).

End Patterns.

(** ** Cells, rows and frames *)

Definition cell : Type := option string.

(** [a != b] and [a == b] on two object cells: a missing value differs from
    everything, itself included. *)
Definition cell_ne (a b : cell) : bool :=
  match a, b with
  | Some x, Some y => negb (String.eqb x y)
  | _, _ => true
  end.

Definition cell_eq (a b : cell) : bool := negb (cell_ne a b).

(** [DataFrame.replace(rx, np.nan, regex=True)] on one cell: the whole cell
    becomes missing as soon as [rx.search] finds a match in it. *)
Definition replace_regex_nan (r : Re.regex) (c : cell) : cell :=
  match c with
  | Some s => if Re.search r s then None else Some s
  | None => None
  end.

(** [DataFrame.replace([...], np.nan)] on one cell: whole-cell equality. *)
Definition replace_values_nan (vs : list string) (c : cell) : cell :=
  match c with
  | Some s => if existsb (String.eqb s) vs then None else Some s
  | None => None
  end.

(** [DataFrame.replace(to_replace=rx, value=str, regex=True)] on one cell:
    [rx.sub(value, s)]. *)
Definition replace_regex_str (r : Re.regex) (v : string) (c : cell) : cell :=
  option_map (Re.sub r v) c.

(** [str.strip()] *)
Fixpoint lstrip (s : string) : string :=
  match s with
  | String c s' => if Chars.is_space c then lstrip s' else s
  | EmptyString => EmptyString
  end.

Fixpoint rstrip (s : string) : string :=
  match s with
  | String c s' =>
      match rstrip s' with
      | EmptyString =>
          if Chars.is_space c then EmptyString else String c EmptyString
      | t => String c t
      end
  | EmptyString => EmptyString
  end.

Definition strip (s : string) : string := rstrip (lstrip s).

(** [str.split(sep)] for a one-character separator: every occurrence
    splits. *)
Fixpoint split (sep : ascii) (s : string) : list string :=
  match s with
  | EmptyString => [EmptyString]
  | String c s' =>
      if Ascii.eqb c sep then EmptyString :: split sep s'
      else match split sep s' with
           | h :: t => String c h :: t
           | [] => [String c EmptyString]
           end
  end.

(** the frame as [read_csv] delivers it, with "Project No" renamed *)
Module Raw.
Record row : Type := mk {
  Mod_No : cell;
  Area : cell;
  Plant : cell;
  Temporary_Mod : cell;
  Status : cell;
  Project : cell
}.

(** a cell-wise operation over every column of a row *)
Definition map_cells (f : cell -> cell) (r : row) : row :=
  mk (f (Mod_No r)) (f (Area r)) (f (Plant r)) (f (Temporary_Mod r))
     (f (Status r)) (f (Project r)).

Definition set_Project (c : cell) (r : row) : row :=
  mk (Mod_No r) (Area r) (Plant r) (Temporary_Mod r) (Status r) c.
End Raw.

(** the frame after lines 142-147: [Mod_No] replaced by its two parts *)
Module Tidy.
Record row : Type := mk {
  Mod_Id : cell;
  Mod_Yr : cell;
  Area : cell;
  Plant : cell;
  Temporary_Mod : cell;
  Status : cell;
  Project : cell
}.
End Tidy.

Definition frame (R : Type) : Type := list (nat * R).

Definition map_rows {R S : Type} (f : R -> S) (df : frame R) : frame S :=
  map (fun ir => (fst ir, f (snd ir))) df.

Definition select {R : Type} (p : R -> bool) (df : frame R) : frame R :=
  filter (fun ir => p (snd ir)) df.

(** [pd.read_csv]: the rows in file order under the labels 0, 1, 2, ... *)
Definition read_csv (rows : list Raw.row) : frame Raw.row :=
  combine (seq 0 (List.length rows)) rows.

(** ** Exceptions *)

Inductive exn : Type := KeyError | ValueError | ZeroDivisionError | TypeError.

Inductive result (A : Type) : Type :=
| Ok (a : A)
| Raise (e : exn).
Arguments Ok {A} a.
Arguments Raise {A} e.

Definition bind {A B : Type} (x : result A) (f : A -> result B) : result B :=
  match x with
  | Ok a => f a
  | Raise e => Raise e
  end.

Notation "'let*' x ':=' a 'in' b" := (bind a (fun x => b))
  (at level 10, x pattern, a at level 100, b at level 200).

Fixpoint for_each {A S : Type} (body : S -> A -> result S) (xs : list A)
  (st : S) : result S :=
  match xs with
  | [] => Ok st
  | x :: xs' => let* st' := body st x in for_each body xs' st'
  end.

Fixpoint map_result {A B : Type} (f : A -> result B) (xs : list A)
  : result (list B) :=
  match xs with
  | [] => Ok []
  | x :: xs' =>
      let* y := f x in
      let* ys := map_result f xs' in
      Ok (y :: ys)
  end.

(** ** The normaliser, lines 100-147 *)

Definition PLOT_SERVICES : bool := false.
Definition PROJECT_THRESHOLD : nat := 5.

(** the chain of [replace] calls of [project_cleanup], on one cell *)
Definition cleanup_cell (c : cell) : cell :=
  let c1 := replace_regex_nan Patterns.na_regex c in
  let c2 := replace_values_nan Patterns.placeholders c1 in
  let c3 := replace_regex_nan Patterns.blank_regex c2 in
  let c4 := replace_regex_nan Patterns.zeros_regex c3 in
  let c5 := replace_regex_nan Patterns.dashes_regex c4 in
  replace_regex_nan Patterns.symbol_regex c5.

Definition project_cleanup (dataframe : frame Raw.row) : frame Raw.row :=
  let df2 := map_rows (Raw.map_cells cleanup_cell) dataframe in
  select (fun r => cell_ne (Raw.Project r) (Raw.Mod_No r)) df2.

(** line 137 *)
Definition drop_cancelled (df : frame Raw.row) : frame Raw.row :=
  select (fun r => cell_ne (Raw.Status r) (Some "Cancelled")) df.

(** line 138 *)
Definition services_cell (c : cell) : cell :=
  replace_regex_str Patterns.services_regex "Services" c.

Definition collapse_services (df : frame Raw.row) : frame Raw.row :=
  map_rows (Raw.map_cells services_cell) df.

(** line 139 *)
Definition strip_project (df : frame Raw.row) : frame Raw.row :=
  map_rows (fun r => Raw.set_Project (option_map strip (Raw.Project r)) r) df.

(** line 142: [str.split("-", expand=True)].  A missing code yields a
    missing row; the frame is as wide as its longest row. *)
Definition split_code (c : cell) : option (list string) :=
  option_map (split "-") c.

Definition parts_width (p : option (list string)) : nat :=
  match p with
  | Some l => List.length l
  | None => 1
  end.

Definition expand_width (ps : list (option (list string))) : nat :=
  fold_right (fun p w => Nat.max (parts_width p) w) 0 ps.

(** the cell of column [k] in the row of [p]; short rows are padded *)
Definition part (k : nat) (p : option (list string)) : cell :=
  match p with
  | Some l => nth_error l k
  | None => None
  end.

(** [new[k]]: the label [k] must be a column of [new] *)
Definition expand_column (k : nat) (ps : list (option (list string)))
  : result (list cell) :=
  if Nat.ltb k (expand_width ps) then Ok (map (part k) ps)
  else Raise KeyError.

Definition with_parts (yr id : cell) (r : Raw.row) : Tidy.row :=
  Tidy.mk id yr (Raw.Area r) (Raw.Plant r) (Raw.Temporary_Mod r)
    (Raw.Status r) (Raw.Project r).

Fixpoint assign_parts (df : frame Raw.row) (yrs ids : list cell)
  : frame Tidy.row :=
  match df, yrs, ids with
  | (i, r) :: df', y :: yrs', d :: ids' =>
      (i, with_parts y d r) :: assign_parts df' yrs' ids'
  | _, _, _ => []
  end.

(** lines 142-147 *)
Definition split_mod_no (df : frame Raw.row) : result (frame Tidy.row) :=
  let new := map (fun ir => split_code (Raw.Mod_No (snd ir))) df in
  let* yrs := expand_column 0 new in
  let* ids := expand_column 1 new in
  Ok (assign_parts df yrs ids).

(** lines 136-147 *)
Definition normalise (df : frame Raw.row) : result (frame Tidy.row) :=
  let df := project_cleanup df in
  let df := drop_cancelled df in
  let df := collapse_services df in
  let df := strip_project df in
  split_mod_no df.

(** ** The aggregator, lines 150-205 *)

Definition table : Type := list (string * nat).

(** the non-missing values of a column, in row order *)
Definition column_values {R : Type} (col : R -> cell) (df : frame R)
  : list string :=
  flat_map (fun ir => match col (snd ir) with
                      | Some s => [s]
                      | None => []
                      end) df.

(** [groupby(col).size()]: one entry per distinct key, keys ascending;
    rows whose key is missing belong to no group. *)
Fixpoint insert_key (k : string) (t : table) : table :=
  match t with
  | [] => [(k, 1)]
  | (k', n) :: t' =>
      match String.compare k k' with
      | Eq => (k', S n) :: t'
      | Lt => (k, 1) :: t
      | Gt => (k', n) :: insert_key k t'
      end
  end.

Definition group_sizes (keys : list string) : table :=
  fold_right insert_key [] keys.

(** [Series.sort_index()] *)
Fixpoint insert_sorted (e : string * nat) (t : table) : table :=
  match t with
  | [] => [e]
  | e' :: t' =>
      if String.leb (fst e) (fst e') then e :: t
      else e' :: insert_sorted e t'
  end.

Definition sort_index (t : table) : table := fold_right insert_sorted [] t.

Definition total (t : table) : nat := fold_right (fun e a => snd e + a) 0 t.

Fixpoint lookup {A : Type} (k : string) (cols : list (string * A)) : option A :=
  match cols with
  | [] => None
  | (k', v) :: cols' => if String.eqb k k' then Some v else lookup k cols'
  end.

(** [frame[k] = v]: an existing column is overwritten in place, a new one
    is appended *)
Fixpoint put {A : Type} (k : string) (v : A) (cols : list (string * A))
  : list (string * A) :=
  match cols with
  | [] => [(k, v)]
  | (k', v') :: cols' =>
      if String.eqb k k' then (k, v) :: cols' else (k', v') :: put k v cols'
  end.

(** the counting frame [cdf] of line 160: its length is that of the year
    index; its year column is dropped by line 172 and is not kept here *)
Record counting_frame : Type := mk_cdf {
  cdf_rows : nat;
  cdf_columns : list (string * list nat)
}.

(** [cdf[item] = values] with a list: the lengths must agree *)
Definition set_column (item : string) (values : list nat)
  (cdf : counting_frame) : result counting_frame :=
  if Nat.eqb (List.length values) (cdf_rows cdf)
  then Ok (mk_cdf (cdf_rows cdf) (put item values (cdf_columns cdf)))
  else Raise ValueError.

Definition num : Type := option Q.

Definition matrix : Type := list (string * list num).

Definition of_count (n : nat) : num := Some (inject_Z (Z.of_nat n)).

Definition column_titles : list string := ["Methacrylates"; "Cyanides"; "MM8"].

(** line 172: [cdf.reindex(columns=column_titles)]; a title that is not a
    column of [cdf] gives a column of missing values *)
Definition reindex (cdf : counting_frame) : matrix :=
  map (fun title =>
         (title,
          match lookup title (cdf_columns cdf) with
          | Some values => map of_count values
          | None => repeat None (cdf_rows cdf)
          end)) column_titles.

Definition get_column (item : string) (m : matrix) : result (list num) :=
  match lookup item m with
  | Some values => Ok values
  | None => Raise KeyError
  end.

Definition add_num (a b : num) : num :=
  match a, b with
  | Some x, Some y => Some (x + y)%Q
  | _, _ => None
  end.

Fixpoint zip3 (f : num -> num -> num -> num) (xs ys zs : list num)
  : list num :=
  match xs, ys, zs with
  | x :: xs', y :: ys', z :: zs' => f x y z :: zip3 f xs' ys' zs'
  | _, _, _ => []
  end.

(** line 180 *)
Definition totals (cdf : matrix) : result (list num) :=
  let* mm8 := get_column "MM8" cdf in
  let* met := get_column "Methacrylates" cdf in
  let* cya := get_column "Cyanides" cdf in
  Ok (zip3 (fun i j k => add_num (add_num i j) k) mm8 met cya).

(** [i / j * 100] of line 183 *)
Definition percent_cell (i j : num) : result num :=
  match j with
  | Some t =>
      if Qeq_bool t 0 then Raise ZeroDivisionError
      else Ok (match i with
               | Some x => Some (x / t * 100)%Q
               | None => None
               end)
  | None => Ok None
  end.

(** [[i / j * 100 for i,j in zip(column, totals)]] *)
Definition scale (column totals : list num) : result (list num) :=
  map_result (fun ij => percent_cell (fst ij) (snd ij)) (combine column totals).

(** the body of the loop of lines 181-183 *)
Definition percent_step (totals : list num) (cdf : matrix) (item : string)
  : result matrix :=
  if negb (String.eqb item "Services") then
    let* column := get_column item cdf in
    let* scaled := scale column totals in
    Ok (put item scaled cdf)
  else Ok cdf.

(** lines 180-183 *)
Definition percentages (items : list string) (cdf : matrix) : result matrix :=
  let* totals := totals cdf in
  for_each (percent_step totals) items cdf.

(** a matrix with exactly the three fixed columns, as line 172 leaves it *)
Definition fixed_areas (met cya mm8 : list num) : matrix :=
  [("Methacrylates", met); ("Cyanides", cya); ("MM8", mm8)].

(** the cell of a column in a row *)
Definition cell_at (item : string) (k : nat) (m : matrix) : option num :=
  match lookup item m with
  | Some values => nth_error values k
  | None => None
  end.

(** line 197 *)
Definition above_threshold (dfp : table) : table :=
  filter (fun e => Nat.ltb PROJECT_THRESHOLD (snd e)) dfp.

(** [Series.idxmax()]: the label of the first largest value; an empty
    series has none *)
Fixpoint argmax_from (best : string * nat) (t : table) : string * nat :=
  match t with
  | [] => best
  | e :: t' =>
      if Nat.ltb (snd best) (snd e) then argmax_from e t'
      else argmax_from best t'
  end.

Definition idxmax (t : table) : result string :=
  match t with
  | [] => Raise ValueError
  | e :: t' => Ok (fst (argmax_from e t'))
  end.

Definition table_max (t : table) : nat :=
  fold_right (fun e a => Nat.max (snd e) a) 0 t.

(** lines 197-205; [plot] is the outcome of [dfp.plot(kind='bar')] *)
Definition largest_project (plot : table -> result unit) (dfp : table)
  : result (string * nat) :=
  let dfp := above_threshold dfp in
  let* _ := plot dfp in
  let* name := idxmax dfp in
  Ok (name, table_max dfp).

Section Aggregator.

(** [Series.sort_values(ascending=False)] runs numpy's quicksort, which
    fixes no order among equal counts: it is taken as a parameter. *)
Variable sort_values : table -> table.

(** [DataFrame.value_counts(col)] *)
Definition value_counts {R : Type} (col : R -> cell) (df : frame R) : table :=
  sort_values (group_sizes (column_values col df)).

(** lines 155-168 *)
Definition build_cdf (df : frame Tidy.row) : result counting_frame :=
  let counts := value_counts Tidy.Area df in
  let cdf := mk_cdf (List.length (value_counts Tidy.Mod_Yr df)) [] in
  for_each
    (fun cdf item =>
       if (negb (String.eqb item "Services") && negb PLOT_SERVICES)
          || PLOT_SERVICES
       then
         let dfl := select (fun r => cell_eq (Tidy.Area r) (Some item)) df in
         set_column item (map snd (sort_index (value_counts Tidy.Mod_Yr dfl)))
           cdf
       else Ok cdf)
    (map fst counts) cdf.

(** lines 189-190 *)
Definition hcn6_by_year (df : frame Tidy.row) : table :=
  value_counts Tidy.Mod_Yr
    (select (fun r => cell_eq (Tidy.Plant r) (Some "HCN6")) df).

(** the plants of one area, line 165 *)
Definition plants_of (item : string) (df : frame Tidy.row) : table :=
  value_counts Tidy.Plant
    (select (fun r => cell_eq (Tidy.Area r) (Some item)) df).

Record report : Type := mk_report {
  by_year : table;
  by_area : table;
  year_by_area : matrix;
  year_by_area_percent : matrix;
  by_project : table;
  headline : nat * nat * nat;
  largest : string * nat
}.

(** the analysis, lines 150-205, of the normalised frame *)
Definition analyse (plot : table -> result unit) (df : frame Tidy.row)
  : result report :=
  let counts := value_counts Tidy.Area df in
  let* cdf := build_cdf df in
  let cdf := reindex cdf in
  let* pct := percentages (map fst counts) cdf in
  let dfp := value_counts Tidy.Project df in
  let head := (total dfp, List.length dfp, List.length df) in
  let* big := largest_project plot dfp in
  Ok (mk_report (value_counts Tidy.Mod_Yr df) counts cdf pct dfp head big).

(** the script from line 133 on, for the rows of the input file *)
Definition create_report (plot : table -> result unit) (rows : list Raw.row)
  : result report :=
  let* df := normalise (read_csv rows) in
  analyse plot df.

End Aggregator.

(** one admissible [sort_values]: counts descending, by insertion *)
Fixpoint insert_by_count (e : string * nat) (t : table) : table :=
  match t with
  | [] => [e]
  | e' :: t' =>
      if Nat.leb (snd e') (snd e) then e :: t
      else e' :: insert_by_count e t'
  end.

Definition by_count_desc (t : table) : table :=
  fold_right insert_by_count [] t.

(** a plotting layer that draws nothing and never fails *)
Definition no_plot (t : table) : result unit := Ok tt.

(** ** The classification rules in the words of the specification *)

Module Spec.

Definition is_n (c : ascii) : bool := Ascii.eqb c "n" || Ascii.eqb c "N".
Definition is_a (c : ascii) : bool := Ascii.eqb c "a" || Ascii.eqb c "A".

Fixpoint has (p : ascii -> bool) (s : string) : bool :=
  match s with
  | String c s' => p c || has p s'
  | EmptyString => false
  end.

Fixpoint all (p : ascii -> bool) (s : string) : bool :=
  match s with
  | String c s' => p c && all p s'
  | EmptyString => true
  end.


Fixpoint a_before_n (s : string) : bool :=
  match s with
  | String c s' => (is_a c && has is_n s') || a_before_n s'
  | EmptyString => false
  end.


(** rule 5 *)
Definition placeholder (s : string) : bool :=
  existsb (String.eqb s) ["TBC"; "various"; "TBA"; "Multiple"].

(** rule 6 *)
Definition single (p : ascii -> bool) (s : string) : bool :=
  match s with
  | String c EmptyString => p c
  | _ => false
  end.



End Spec.

(** ** Sample inputs *)

Module Samples.

Definition active (code area plant project : string) : Raw.row :=
  Raw.mk (Some code) (Some area) (Some plant) (Some "No") (Some "Active")
    (Some project).

(** the three rows of the scenario of section 8, as [read_csv] parses them:
    the text [N/A] is read as a missing value *)
Definition scenario : list Raw.row :=
  [ active "2019-0001" "Cyanides" "CYN1" "5228285";
    Raw.mk (Some "2019-0002") (Some "Cyanides") (Some "CYN1") (Some "No")
      (Some "Cancelled") None;
    active "2020-0001" "MM8" "ACH8" "   " ].

(** two years, each with records in one area only *)
Definition two_years : list Raw.row :=
  [ active "2019-0001" "Cyanides" "CYN1" "P1";
    active "2020-0001" "MM8" "ACH8" "P2" ].


(** one year, every fixed area present, one project above the threshold *)
Definition one_year : list Raw.row :=
  [ active "2019-0001" "Cyanides" "HCN6" "5228285";
    active "2019-0002" "MM8" "ACH8" "5228285";
    active "2019-0003" "Methacrylates" "MMA1" "5228285";
    active "2019-0004" "Methacrylates" "MMA1" "5228285";
    active "2019-0005" "Cyanides" "HCN6" "5228285";
    active "2019-0006" "Cyanides" "HCN6" "5228285";
    active "2019-0007" "Services - 3rd Party Equipment" "BOIL" "N.a";
    Raw.mk (Some "2019-0008") (Some "MM8") (Some "ACH8") (Some "No")
      (Some "Cancelled") (Some "5228285") ].


(** a record with placeholders in other columns than the project *)
Definition untidy : list Raw.row :=
  [ Raw.mk (Some "2019-0001") (Some "-") (Some "000") (Some " ")
      (Some "TBC") (Some "P1");
    active "2019-0002" "MM8" "ACH8" "P2" ].

Definition untidy_cleaned : Raw.row :=
  Raw.mk (Some "2019-0001") None None None None (Some "P1").

Definition frame_of (rows : list Raw.row) : frame Tidy.row :=
  match normalise (read_csv rows) with
  | Ok df => df
  | Raise _ => []
  end.

(** the normalised frames of the inputs above *)
Definition scenario_tidy : frame Tidy.row :=
  Eval vm_compute in frame_of scenario.
Definition two_years_tidy : frame Tidy.row :=
  Eval vm_compute in frame_of two_years.
Definition one_year_tidy : frame Tidy.row :=
  Eval vm_compute in frame_of one_year.





End Samples.

(** ** The normaliser read row by row *)

(** what lines 136-139 do to the project cell of a record that survives *)
Definition project_cell (c : cell) : cell :=
  option_map strip (services_cell (cleanup_cell c)).

Definition cleaned (r : Raw.row) : Raw.row := Raw.map_cells cleanup_cell r.

(** the two row filters, lines 125 and 137, on a row of the input *)
Definition survives (r : Raw.row) : bool :=
  cell_ne (Raw.Project (cleaned r)) (Raw.Mod_No (cleaned r))
  && cell_ne (Raw.Status (cleaned r)) (Some "Cancelled").

Definition finished (r : Raw.row) : Raw.row :=
  let r1 := Raw.map_cells services_cell (cleaned r) in
  Raw.set_Project (option_map strip (Raw.Project r1)) r1.

Definition year_part (code : cell) : cell := part 0 (split_code code).
Definition id_part (code : cell) : cell := part 1 (split_code code).

Definition tidy (r : Raw.row) : Tidy.row :=
  let f := finished r in
  with_parts (year_part (Raw.Mod_No f)) (id_part (Raw.Mod_No f)) f.

Definition code_width (df : frame Raw.row) : nat :=
  expand_width
    (map (fun ir => split_code (Raw.Mod_No (finished (snd ir))))
       (select survives df)).

(** some [replace] of [project_cleanup] applies to the text [s] *)
Definition cleanup_matches (s : string) : bool :=
  Re.search Patterns.na_regex s
  || existsb (String.eqb s) Patterns.placeholders
  || Re.search Patterns.blank_regex s
  || Re.search Patterns.zeros_regex s
  || Re.search Patterns.dashes_regex s
  || Re.search Patterns.symbol_regex s.

(** the classes of values that the cleanup turns into a missing value *)
Definition cleanup_class (s : string) : bool :=
  Spec.all Chars.is_space s
  || Spec.all (Ascii.eqb "0") s
  || Spec.all (Ascii.eqb "-") s
  || Spec.single Chars.is_nonword s
  || Re.search Patterns.na_regex s
  || Spec.placeholder s.

(** the same with "non-alphanumeric" read to the letter *)
Definition cleanup_class_as_claimed (s : string) : bool :=
  Spec.all Chars.is_space s
  || Spec.all (Ascii.eqb "0") s
  || Spec.all (Ascii.eqb "-") s
  || Spec.single (fun c => negb (Chars.is_alnum c)) s
  || Re.search Patterns.na_regex s
  || Spec.placeholder s.

(** how often the separator occurs in a code *)
Fixpoint count_char (sep : ascii) (s : string) : nat :=
  match s with
  | String c s' => (if Ascii.eqb c sep then 1 else 0) + count_char sep s'
  | EmptyString => 0
  end.

(** the years in which an area has records *)
Definition years_of (item : string) (df : frame Tidy.row) : table :=
  group_sizes
    (column_values Tidy.Mod_Yr
       (select (fun r => cell_eq (Tidy.Area r) (Some item)) df)).

(** the cell holds a value *)
Definition present (c : cell) : bool :=
  match c with
  | Some _ => true
  | None => false
  end.


(** further sample inputs *)
Module Inputs.

(** a record whose project repeats its own code, next to a sound one *)
Definition self_reference : list Raw.row :=
  [ Samples.active "2019-0001" "MM8" "ACH8" "2019-0001";
    Samples.active "2019-0002" "MM8" "ACH8" "5228285" ].
Definition self_reference_tidy : frame Tidy.row :=
  Eval vm_compute in Samples.frame_of self_reference.

(** a record whose code has no separator, next to a sound one *)
Definition no_separator : list Raw.row :=
  [ Samples.active "2019/0001" "MM8" "ACH8" "P1";
    Samples.active "2019-0002" "MM8" "ACH8" "P2" ].
Definition no_separator_tidy : frame Tidy.row :=
  Eval vm_compute in Samples.frame_of no_separator.


(** an area outside the three fixed areas and Services *)
Definition other_area : list Raw.row :=
  [ Samples.active "2019-0001" "Utilities" "BOIL" "P1";
    Samples.active "2019-0002" "MM8" "ACH8" "P2" ].
Definition other_area_tidy : frame Tidy.row :=
  Eval vm_compute in Samples.frame_of other_area.

(** one year in which Methacrylates has no record *)
Definition no_methacrylates : list Raw.row :=
  [ Samples.active "2019-0001" "Cyanides" "HCN6" "P1";
    Samples.active "2019-0002" "MM8" "ACH8" "P2" ].
Definition no_methacrylates_tidy : frame Tidy.row :=
  Eval vm_compute in Samples.frame_of no_methacrylates.
Definition no_methacrylates_cdf : counting_frame :=
  Eval vm_compute in
    match build_cdf by_count_desc no_methacrylates_tidy with
    | Ok cdf => cdf
    | Raise _ => mk_cdf 0 []
    end.

(** the report on the sample of one year *)
Definition one_year_report : report :=
  Eval vm_compute in
    match analyse by_count_desc no_plot Samples.one_year_tidy with
    | Ok rep => rep
    | Raise _ => mk_report [] [] [] [] [] (0, 0, 0) ("", 0)
    end.

End Inputs.

(** the keys of two entries ascend *)
Definition key_lt (a b : string * nat) : Prop :=
  String.compare (fst a) (fst b) = Lt.


(** the records of one area *)
Definition of_area (item : string) (df : frame Tidy.row) : frame Tidy.row :=
  select (fun r => cell_eq (Tidy.Area r) (Some item)) df.

(** the years of the data, ascending *)
Definition years (df : frame Tidy.row) : list string :=
  map fst (group_sizes (column_values Tidy.Mod_Yr df)).

(** a cell of the matrix without a number *)
Definition is_missing (v : num) : Prop := v = None.

(** the column that line 172 makes for a title *)
Definition column_of (cdf : counting_frame) (title : string) : list num :=
  match lookup title (cdf_columns cdf) with
  | Some values => map of_count values
  | None => repeat None (cdf_rows cdf)
  end.

(** the count under a key, 0 where the key is absent *)
Definition found (o : option nat) : nat :=
  match o with
  | Some n => n
  | None => 0
  end.

(** the last character of a text *)
Fixpoint last_char (s : string) : option ascii :=
  match s with
  | EmptyString => None
  | String c EmptyString => Some c
  | String _ s' => last_char s'
  end.

(** a text that is not empty and neither starts nor ends with whitespace *)
Definition trimmed (s : string) : bool :=
  match s, last_char s with
  | String c _, Some d => negb (Chars.is_space c) && negb (Chars.is_space d)
  | _, _ => false
  end.

(** the number of records with the value [k] in a column *)
Definition count_rows {R : Type} (col : R -> cell) (k : string) (df : frame R)
  : nat :=
  List.length (select (fun r => cell_eq (col r) (Some k)) df).

(** * Properties *)

(** ** The matcher *)

Module ReFacts.
Import Re.
Import Patterns.

Lemma orelse_some (a b : option string) (x : string) :
  orelse a b = Some x -> a = Some x \/ b = Some x.
Proof. destruct a; simpl; intros H; [left | right]; assumption. Qed.

Lemma orelse_none (a b : option string) :
  orelse a b = None <-> a = None /\ b = None.
Proof.
  destruct a; simpl; split; intros H.
  - discriminate.
  - destruct H; discriminate.
  - split; [reflexivity | assumption].
  - apply H.
Qed.

Lemma search_from_found (r : regex) (i : nat) (s : string) (x : string) :
  match_at r i s = Some x -> search_from r i s = true.
Proof. intros H. destruct s; simpl; rewrite H; reflexivity. Qed.

(** a pattern that can only match at offset 0 is decided there *)
Lemma search_from_later (r : regex) :
  (forall i s, i <> 0 -> match_at r i s = None) ->
  forall s i, i <> 0 -> search_from r i s = false.
Proof.
  intros Hr s. induction s as [| c s IH]; intros i Hi; simpl.
  - rewrite (Hr i _ Hi). reflexivity.
  - rewrite (Hr i _ Hi). apply IH. discriminate.
Qed.

Lemma search_anchored (r : regex) (s : string) :
  (forall i s, i <> 0 -> match_at r i s = None) ->
  search r s = match match_at r 0 s with Some _ => true | None => false end.
Proof.
  intros Hr. unfold search. destruct s as [| c s]; simpl.
  - destruct (match_at r 0 ""); reflexivity.
  - destruct (match_at r 0 (String c s)); [reflexivity |].
    apply search_from_later; [assumption | discriminate].
Qed.

(** [p*$] takes a text made of [p] only *)
Lemma star_to_end (p : ascii -> bool) (i : nat) (s : string) :
  Spec.all p s = true -> star p (run Eol rest_of) i s = Some "".
Proof.
  revert i. induction s as [| c s IH]; intros i H; simpl in *.
  - reflexivity.
  - apply andb_prop in H. destruct H as [Hc Hs].
    rewrite Hc, (IH (S i) Hs). reflexivity.
Qed.


Lemma is_a_lit (c : ascii) :
  Spec.is_a c = (Ascii.eqb "a" c || Ascii.eqb "A" c)%bool.
Proof.
  unfold Spec.is_a. rewrite (Ascii.eqb_sym c "a"), (Ascii.eqb_sym c "A").
  reflexivity.
Qed.

Lemma is_n_lit (c : ascii) :
  Spec.is_n c = (Ascii.eqb "n" c || Ascii.eqb "N" c)%bool.
Proof.
  unfold Spec.is_n. rewrite (Ascii.eqb_sym c "n"), (Ascii.eqb_sym c "N").
  reflexivity.
Qed.

Lemma a_here (i : nat) (c : ascii) (s : string) :
  run (Grp (Alt (Lit "a") (Lit "A"))) rest_of i (String c s)
  = if Spec.is_a c then Some s else None.
Proof.
  rewrite is_a_lit. cbn [run]. unfold one, rest_of, orelse.
  destruct (Ascii.eqb "a" c), (Ascii.eqb "A" c); reflexivity.
Qed.


Lemma then_a_sound (s : string) (i : nat) (x : string) :
  then_a i s = Some x -> Spec.has Spec.is_a s = true.
Proof.
  unfold then_a. revert i.
  induction s as [| c s IH]; intros i H.
  - simpl in H. discriminate.
  - cbn [star] in H. cbn [Spec.has].
    destruct (Chars.is_dot c).
    + apply orelse_some in H. destruct H as [H | H].
      * rewrite (IH _ H). apply orb_true_r.
      * rewrite a_here in H. destruct (Spec.is_a c); [reflexivity | discriminate].
    + rewrite a_here in H. destruct (Spec.is_a c); [reflexivity | discriminate].
Qed.

(** [na_regex] at an offset, with its two look-aheads spelled out *)
Lemma na_regex_at (i : nat) (s : string) :
  match_at Patterns.na_regex i s =
  match s with
  | String c s' =>
      if Spec.is_n c then
        match then_a (S i) s' with
        | Some _ =>
            if Nat.eqb i 0 then
              match upto Patterns.letter_or_nonword 4 (run Eol rest_of) i s with
              | Some _ => Some s
              | None => None
              end
            else None
        | None => None
        end
      else None
  | EmptyString => None
  end.
Proof.
  unfold match_at, Patterns.na_regex. cbn [run exactly Nat.sub].
  destruct s as [| c s']; [reflexivity |].
  rewrite is_n_lit.
  change (star Chars.is_dot _) with then_a.
  unfold one at 1 2. unfold rest_of.
  destruct (Ascii.eqb "n" c), (Ascii.eqb "N" c); cbn [orb orelse];
    try reflexivity;
    destruct (then_a (S i) s'); cbn [orelse]; try reflexivity;
    destruct (Nat.eqb i 0); reflexivity.
Qed.

Lemma na_regex_anchored (i : nat) (s : string) :
  i <> 0 -> match_at Patterns.na_regex i s = None.
Proof.
  intros Hi. rewrite na_regex_at.
  destruct s as [| c s']; [reflexivity |].
  destruct (Spec.is_n c); [| reflexivity].
  destruct (then_a (S i) s'); [| reflexivity].
  apply Nat.eqb_neq in Hi. rewrite Hi. reflexivity.
Qed.


(** and what a match tells *)
Lemma na_regex_matched (s : string) :
  search Patterns.na_regex s = true ->
  exists c s', s = String c s' /\ Spec.is_n c = true
               /\ Spec.has Spec.is_a s' = true.
Proof.
  rewrite search_anchored by apply na_regex_anchored.
  rewrite na_regex_at.
  destruct s as [| c s']; [discriminate |].
  destruct (Spec.is_n c) eqn:Hn; [| discriminate].
  destruct (then_a 1 s') as [x |] eqn:Hx; [| discriminate].
  intros _. exists c, s'. repeat split; try assumption.
  apply (then_a_sound s' 1 x Hx).
Qed.

End ReFacts.

(** ** The cleanup of one cell *)

Module CleanupFacts.
Import Re.
Import ReFacts.

Lemma cleanup_cell_spec (s : string) :
  cleanup_cell (Some s) = if cleanup_matches s then None else Some s.
Proof.
  unfold cleanup_cell, cleanup_matches, replace_regex_nan, replace_values_nan.
  destruct (search Patterns.na_regex s); [reflexivity |].
  destruct (existsb (String.eqb s) Patterns.placeholders); [reflexivity |].
  destruct (search Patterns.blank_regex s); [reflexivity |].
  destruct (search Patterns.zeros_regex s); [reflexivity |].
  destruct (search Patterns.dashes_regex s); [reflexivity |].
  destruct (search Patterns.symbol_regex s); reflexivity.
Qed.

Lemma cleanup_cell_missing : cleanup_cell None = None.
Proof. reflexivity. Qed.

(** [(^p*$)] finds a text made of [p] only *)
Lemma search_all (p : ascii -> bool) (s : string) :
  Spec.all p s = true -> search (Grp (Cat Bol (Cat (Star p) Eol))) s = true.
Proof.
  intros H. unfold search. apply search_from_found with (x := "").
  unfold match_at. cbn [run Nat.eqb]. apply (star_to_end p 0 s H).
Qed.

(** [(^\W$)] finds a single non-word character *)
Lemma search_single (s : string) :
  Spec.single Chars.is_nonword s = true ->
  search Patterns.symbol_regex s = true.
Proof.
  destruct s as [| c [| d s]]; simpl; try discriminate.
  intros H. unfold search, search_from, match_at, Patterns.symbol_regex.
  cbn [run Nat.eqb]. unfold one. rewrite H. reflexivity.
Qed.

Lemma class_matches (s : string) :
  cleanup_class s = true -> cleanup_matches s = true.
Proof.
  unfold cleanup_class, cleanup_matches. intros H.
  apply orb_prop in H. destruct H as [H | H5].
  2: { change (existsb (String.eqb s) Patterns.placeholders = true) in H5.
       rewrite H5. repeat rewrite ?orb_true_r, ?orb_true_l. reflexivity. }
  apply orb_prop in H. destruct H as [H | H4].
  2: { rewrite H4. reflexivity. }
  apply orb_prop in H. destruct H as [H | H].
  2: { rewrite (search_single s H).
       repeat rewrite ?orb_true_r, ?orb_true_l. reflexivity. }
  apply orb_prop in H. destruct H as [H | H].
  2: { rewrite (search_all _ s H : search Patterns.dashes_regex s = true).
       repeat rewrite ?orb_true_r, ?orb_true_l. reflexivity. }
  apply orb_prop in H. destruct H as [H | H].
  - rewrite (search_all _ s H : search Patterns.blank_regex s = true).
    repeat rewrite ?orb_true_r, ?orb_true_l. reflexivity.
  - rewrite (search_all _ s H : search Patterns.zeros_regex s = true).
    repeat rewrite ?orb_true_r, ?orb_true_l. reflexivity.
Qed.

Lemma project_cell_spec (s : string) :
  project_cell (Some s) =
  if cleanup_matches s then None
  else Some (strip (sub Patterns.services_regex "Services" s)).
Proof.
  unfold project_cell. rewrite cleanup_cell_spec.
  destruct (cleanup_matches s); reflexivity.
Qed.

End CleanupFacts.

(** ** The normaliser, frame against rows *)

Module NormaliseFacts.

Lemma pre_split (df : frame Raw.row) :
  strip_project (collapse_services (drop_cancelled (project_cleanup df)))
  = map_rows finished (select survives df).
Proof.
  unfold strip_project, collapse_services, drop_cancelled, project_cleanup,
    map_rows, select.
  induction df as [| [i r] df IH]; [reflexivity |].
  cbn [map filter fst snd]. unfold survives at 1. fold (cleaned r).
  destruct (cell_ne (Raw.Project (cleaned r)) (Raw.Mod_No (cleaned r)));
    cbn [andb filter fst snd]; [| exact IH].
  destruct (cell_ne (Raw.Status (cleaned r)) (Some "Cancelled"));
    cbn [map fst snd]; [| exact IH].
  rewrite IH. reflexivity.
Qed.

Lemma assign_parts_map (f g : Raw.row -> cell) (df : frame Raw.row) :
  assign_parts df (map (fun ir => f (snd ir)) df)
    (map (fun ir => g (snd ir)) df)
  = map_rows (fun r => with_parts (f r) (g r) r) df.
Proof.
  unfold map_rows. induction df as [| [i r] df IH]; [reflexivity |].
  cbn [map assign_parts fst snd]. rewrite IH. reflexivity.
Qed.

Lemma split_mod_no_spec (df : frame Raw.row) :
  split_mod_no df =
  if Nat.ltb 1 (expand_width
                  (map (fun ir => split_code (Raw.Mod_No (snd ir))) df))
  then Ok (map_rows
             (fun r => with_parts (year_part (Raw.Mod_No r))
                         (id_part (Raw.Mod_No r)) r) df)
  else Raise KeyError.
Proof.
  unfold split_mod_no, expand_column.
  set (w := expand_width _).
  destruct w as [| [| w]]; cbn [Nat.ltb Nat.leb bind]; try reflexivity.
  rewrite !map_map.
  rewrite (assign_parts_map (fun r => year_part (Raw.Mod_No r))
             (fun r => id_part (Raw.Mod_No r))).
  reflexivity.
Qed.

Lemma map_rows_map_rows {A B C : Type} (f : A -> B) (g : B -> C)
  (df : frame A) :
  map_rows g (map_rows f df) = map_rows (fun r => g (f r)) df.
Proof. unfold map_rows. rewrite map_map. reflexivity. Qed.

(** lines 136-147 in one step *)
Lemma normalise_spec (df : frame Raw.row) :
  normalise df =
  if Nat.ltb 1 (code_width df) then Ok (map_rows tidy (select survives df))
  else Raise KeyError.
Proof.
  unfold normalise. rewrite pre_split, split_mod_no_spec.
  unfold code_width, map_rows at 1. rewrite map_map. cbn [snd].
  destruct (Nat.ltb 1 _); [| reflexivity].
  rewrite map_rows_map_rows. reflexivity.
Qed.

Lemma in_combine_seq {A : Type} (l : list A) (a i : nat) (x : A) :
  In (i, x) (combine (seq a (List.length l)) l)
  <-> a <= i /\ nth_error l (i - a) = Some x.
Proof.
  revert a. induction l as [| y l IH]; intros a; cbn [List.length seq combine].
  - split; [intros [] | intros [_ H]].
    destruct (i - a); discriminate.
  - cbn [In]. rewrite IH. split.
    + intros [H | [H1 H2]].
      * inversion H; subst. rewrite Nat.sub_diag. split; [lia | reflexivity].
      * split; [lia |]. replace (i - a) with (S (i - S a)) by lia. exact H2.
    + intros [H1 H2]. destruct (Nat.eq_dec a i) as [-> | Hne].
      * rewrite Nat.sub_diag in H2. left. inversion H2. reflexivity.
      * right. split; [lia |].
        replace (i - a) with (S (i - S a)) in H2 by lia. exact H2.
Qed.

Lemma in_read_csv (rows : list Raw.row) (i : nat) (r : Raw.row) :
  In (i, r) (read_csv rows) <-> nth_error rows i = Some r.
Proof.
  unfold read_csv. rewrite in_combine_seq, Nat.sub_0_r.
  split; [intros [_ H]; exact H | intros H; split; [lia | exact H]].
Qed.


(** a row of the normalised frame is the tidied row of the input under
    the same label, and that row passed both filters *)
Lemma normalise_rows (rows : list Raw.row) (out : frame Tidy.row) :
  normalise (read_csv rows) = Ok out ->
  forall i r', In (i, r') out <->
    exists r, nth_error rows i = Some r /\ survives r = true /\ r' = tidy r.
Proof.
  rewrite normalise_spec.
  destruct (Nat.ltb 1 _); [| discriminate].
  intros H. inversion H; subst out. clear H. intros i r'.
  unfold map_rows, select. rewrite in_map_iff. split.
  - intros [[j r] [Heq Hin]]. cbn [fst snd] in Heq. inversion Heq; subst.
    apply filter_In in Hin. destruct Hin as [Hin Hs]. cbn [snd] in Hs.
    exists r. rewrite <- in_read_csv. auto.
  - intros [r [Hn [Hs Hr]]]. exists (i, r). subst r'. split; [reflexivity |].
    apply filter_In. rewrite in_read_csv. auto.
Qed.



End NormaliseFacts.

(** ** Splitting the modification code *)

Module SplitFacts.


Lemma split_whole (sep : ascii) (s : string) :
  count_char sep s = 0 -> split sep s = [s].
Proof.
  induction s as [| c s IH]; cbn [split count_char]; [reflexivity |].
  destruct (Ascii.eqb c sep); [discriminate |].
  intros H. rewrite (IH H). reflexivity.
Qed.



End SplitFacts.

(** ** The claims *)

(** a record of the normalised frame holds, as its project, the project
    cell of the input row with the same label *)
Lemma normalised_project (rows : list Raw.row) (out : frame Tidy.row)
  (i : nat) (r : Raw.row) (r' : Tidy.row) :
  normalise (read_csv rows) = Ok out ->
  nth_error rows i = Some r -> In (i, r') out ->
  Tidy.Project r' = project_cell (Raw.Project r).
Proof.
  intros Hn Hr Hin.
  apply (NormaliseFacts.normalise_rows rows out Hn) in Hin.
  destruct Hin as [r0 [Hr0 [_ ->]]].
  rewrite Hr in Hr0. inversion Hr0; subst r0. reflexivity.
Qed.












(** C9, as stated, fails: the underscore is a single non-alphanumeric
    character, and the cleanup leaves an area of [_] as it is; [\W] does not
    match the underscore. *)
Lemma C9_counterexample :
  cleanup_class_as_claimed "_" = true
  /\ project_cleanup (read_csv [Samples.active "2019-0001" "_" "ACH8" "P1"])
     = [(0, Samples.active "2019-0001" "_" "ACH8" "P1")].
Proof. split; vm_compute; reflexivity. Qed.

(** C9, amended.  The replacements of [project_cleanup] are applied to every
    column of a record: each cell of a row that is kept is the cleaned cell
    of the input row; and a value of any column that is made of whitespace
    only, of zeros only, of dashes only, is a single non-word character (not
    a letter, a digit or the underscore), is matched by [na_regex] or is a
    placeholder token, becomes the missing value. *)
Theorem C9_cleanup_every_column :
  (forall df i r',
      In (i, r') (project_cleanup df) ->
      exists r, In (i, r) df
        /\ Raw.Mod_No r' = cleanup_cell (Raw.Mod_No r)
        /\ Raw.Area r' = cleanup_cell (Raw.Area r)
        /\ Raw.Plant r' = cleanup_cell (Raw.Plant r)
        /\ Raw.Temporary_Mod r' = cleanup_cell (Raw.Temporary_Mod r)
        /\ Raw.Status r' = cleanup_cell (Raw.Status r)
        /\ Raw.Project r' = cleanup_cell (Raw.Project r))
  /\ (forall s, cleanup_class s = true -> cleanup_cell (Some s) = None).
Proof.
  split.
  - intros df i r' H. unfold project_cleanup, select, map_rows in H.
    apply filter_In in H. destruct H as [H _].
    apply in_map_iff in H. destruct H as [[j r] [Heq Hin]].
    cbn [fst snd] in Heq. inversion Heq; subst. exists r.
    split; [exact Hin |]. repeat split; reflexivity.
  - intros s H. rewrite CleanupFacts.cleanup_cell_spec.
    rewrite (CleanupFacts.class_matches s H). reflexivity.
Qed.

Lemma C9_cleanup_every_column_witness :
  (exists r, In (0, r) (read_csv Samples.untidy)
     /\ Raw.Mod_No Samples.untidy_cleaned = cleanup_cell (Raw.Mod_No r)
     /\ Raw.Area Samples.untidy_cleaned = cleanup_cell (Raw.Area r)
     /\ Raw.Plant Samples.untidy_cleaned = cleanup_cell (Raw.Plant r)
     /\ Raw.Temporary_Mod Samples.untidy_cleaned
        = cleanup_cell (Raw.Temporary_Mod r)
     /\ Raw.Status Samples.untidy_cleaned = cleanup_cell (Raw.Status r)
     /\ Raw.Project Samples.untidy_cleaned = cleanup_cell (Raw.Project r))
  /\ cleanup_cell (Some "?") = None.
Proof.
  split.
  - apply (proj1 C9_cleanup_every_column (read_csv Samples.untidy) 0).
    vm_compute. left. reflexivity.
  - apply (proj2 C9_cleanup_every_column "?"). reflexivity.
Defined.

(** ** The rewrite of line 138 never yields the cancelled marker *)

Module ServicesFacts.

Lemma length_app (a b : string) :
  String.length (a ++ b) = String.length a + String.length b.
Proof. induction a as [| c a IH]; simpl; [reflexivity | rewrite IH; reflexivity]. Qed.

(** [sub] either finds nothing and returns its text, or its result holds
    the replacement *)
Lemma sub_from_shape (r : Re.regex) (repl : string) (fuel i : nat)
  (s : string) :
  Re.sub_from fuel r repl i s = s
  \/ exists pre post, Re.sub_from fuel r repl i s = (pre ++ repl ++ post)%string.
Proof.
  revert i s. induction fuel as [| fuel IH]; intros i s; cbn [Re.sub_from].
  - left. reflexivity.
  - destruct (Re.match_at r i s) as [rest |].
    + right. destruct (Nat.ltb (String.length rest) (String.length s)).
      * exists "". eexists. reflexivity.
      * destruct s as [| c s'].
        -- exists "", "". cbn [append].
           clear. induction repl as [| d repl IH]; simpl; [| rewrite <- IH];
             reflexivity.
        -- exists "". eexists. reflexivity.
    + destruct s as [| c s']; [left; reflexivity |].
      destruct (IH (S i) s') as [E | [pre [post E]]]; rewrite E.
      * left. reflexivity.
      * right. exists (String c pre), post. reflexivity.
Qed.



End ServicesFacts.

(** ** The tables depend on the rows only, not on their labels *)

Module AggregateFacts.





Section Rows.

Variable sort_values : table -> table.




End Rows.




End AggregateFacts.



(** ** Counting *)

Module CountFacts.

Lemma total_insert_key (k : string) (t : table) :
  total (insert_key k t) = S (total t).
Proof.
  induction t as [| [k' n] t IH]; [reflexivity |].
  cbn [insert_key]. destruct (String.compare k k'); cbn [total fold_right snd].
  - reflexivity.
  - reflexivity.
  - fold (total (insert_key k t)). rewrite IH. fold (total t). lia.
Qed.

Lemma total_group_sizes (keys : list string) :
  total (group_sizes keys) = List.length keys.
Proof.
  induction keys as [| k keys IH]; [reflexivity |].
  cbn [group_sizes fold_right List.length].
  fold (group_sizes keys). rewrite total_insert_key, IH. reflexivity.
Qed.

Lemma total_permutation (t1 t2 : table) :
  Permutation t1 t2 -> total t1 = total t2.
Proof.
  induction 1 as [| e t1 t2 _ IH | e1 e2 t | t1 t2 t3 _ IH1 _ IH2];
    cbn [total fold_right] in *; fold total in *.
  - reflexivity.
  - fold (total t1). fold (total t2). rewrite IH. reflexivity.
  - lia.
  - congruence.
Qed.

Lemma length_column_values {R : Type} (col : R -> cell) (df : frame R) :
  List.length (column_values col df)
  = List.length (select (fun r => present (col r)) df).
Proof.
  unfold column_values, select.
  induction df as [| [i r] df IH]; [reflexivity |].
  cbn [flat_map filter snd]. rewrite length_app, IH.
  destruct (col r); reflexivity.
Qed.

Lemma length_select {R : Type} (p : R -> bool) (df : frame R) :
  List.length (select p df) <= List.length df.
Proof. unfold select. apply filter_length_le. Qed.

Lemma insert_by_count_perm (e : string * nat) (t : table) :
  Permutation (insert_by_count e t) (e :: t).
Proof.
  induction t as [| e' t IH]; cbn [insert_by_count]; [reflexivity |].
  destruct (Nat.leb (snd e') (snd e)); [reflexivity |].
  rewrite IH. apply perm_swap.
Qed.

Lemma by_count_desc_perm (t : table) : Permutation (by_count_desc t) t.
Proof.
  induction t as [| e t IH]; [reflexivity |].
  cbn [by_count_desc fold_right]. fold (by_count_desc t).
  rewrite insert_by_count_perm, IH. reflexivity.
Qed.

Section Sorted.

Variable sort_values : table -> table.
Hypothesis sort_values_perm : forall t, Permutation (sort_values t) t.

(** the counts of a column add up to the rows that have a value there *)
Lemma total_value_counts {R : Type} (col : R -> cell) (df : frame R) :
  total (value_counts sort_values col df)
  = List.length (select (fun r => present (col r)) df).
Proof.
  unfold value_counts.
  rewrite (total_permutation _ _ (sort_values_perm _)).
  rewrite total_group_sizes. apply length_column_values.
Qed.

End Sorted.

End CountFacts.

(** C4, as stated, fails: in the scenario of section 8 two records survive,
    one of them with a missing project; the project table has the single
    entry 5228285 and its counts add up to 1. *)
Lemma C4_counterexample :
  normalise (read_csv Samples.scenario) = Ok Samples.scenario_tidy
  /\ List.length Samples.scenario_tidy = 2
  /\ value_counts by_count_desc Tidy.Project Samples.scenario_tidy
     = [("5228285", 1)]
  /\ total (value_counts by_count_desc Tidy.Project Samples.scenario_tidy)
     <> List.length Samples.scenario_tidy.
Proof.
  repeat split; try (vm_compute; reflexivity).
  vm_compute. discriminate.
Qed.

(** C4, amended.  The per-area counts add up to the number of surviving
    records with an area, and the per-project counts to the number of
    surviving records with a project; records whose area or project is
    missing are in no bucket, so each sum is at most the number of surviving
    records. *)
Theorem C4_counts_sum :
  forall (sort_values : table -> table) (df : frame Tidy.row),
    (forall t, Permutation (sort_values t) t) ->
    total (value_counts sort_values Tidy.Area df)
    = List.length (select (fun r => present (Tidy.Area r)) df)
    /\ total (value_counts sort_values Tidy.Project df)
       = List.length (select (fun r => present (Tidy.Project r)) df)
    /\ total (value_counts sort_values Tidy.Area df) <= List.length df
    /\ total (value_counts sort_values Tidy.Project df) <= List.length df.
Proof.
  intros sort_values df Hp.
  rewrite !(CountFacts.total_value_counts sort_values Hp).
  repeat split; try reflexivity; apply CountFacts.length_select.
Qed.

Lemma C4_counts_sum_witness :
  total (value_counts by_count_desc Tidy.Area Samples.scenario_tidy)
  = List.length (select (fun r => present (Tidy.Area r)) Samples.scenario_tidy)
  /\ total (value_counts by_count_desc Tidy.Project Samples.scenario_tidy)
     = List.length
         (select (fun r => present (Tidy.Project r)) Samples.scenario_tidy)
  /\ total (value_counts by_count_desc Tidy.Area Samples.scenario_tidy)
     <= List.length Samples.scenario_tidy
  /\ total (value_counts by_count_desc Tidy.Project Samples.scenario_tidy)
     <= List.length Samples.scenario_tidy.
Proof.
  apply (C4_counts_sum by_count_desc Samples.scenario_tidy).
  exact CountFacts.by_count_desc_perm.
Defined.

(** ** The largest project *)

Module LargestFacts.


Lemma argmax_from_max (t : table) (best : string * nat) :
  snd (argmax_from best t) = Nat.max (snd best) (table_max t).
Proof.
  revert best. induction t as [| e t IH]; intros best;
    cbn [argmax_from table_max fold_right].
  - lia.
  - fold (table_max t). destruct (Nat.ltb (snd best) (snd e)) eqn:E; rewrite IH.
    + apply Nat.ltb_lt in E. lia.
    + apply Nat.ltb_ge in E. lia.
Qed.





End LargestFacts.



(** ** Building the year by area matrix *)

Module MatrixFacts.

Lemma length_insert_sorted (e : string * nat) (t : table) :
  List.length (insert_sorted e t) = S (List.length t).
Proof.
  induction t as [| e' t IH]; [reflexivity |].
  cbn [insert_sorted]. destruct (String.leb (fst e) (fst e')); [reflexivity |].
  cbn [List.length]. rewrite IH. reflexivity.
Qed.

Lemma length_sort_index (t : table) :
  List.length (sort_index t) = List.length t.
Proof.
  induction t as [| e t IH]; [reflexivity |].
  cbn [sort_index fold_right]. fold (sort_index t).
  rewrite length_insert_sorted, IH. reflexivity.
Qed.

(** the loop of lines 161-168 for an arbitrary choice of columns: one
    column of the wrong length makes it raise [ValueError] *)
Lemma for_each_set_column (wanted : string -> bool)
  (column : string -> list nat) (items : list string) :
  forall cdf,
    (exists item, In item items /\ wanted item = true
                  /\ List.length (column item) <> cdf_rows cdf) ->
    for_each (fun cdf item =>
                if wanted item then set_column item (column item) cdf
                else Ok cdf) items cdf
    = Raise ValueError.
Proof.
  induction items as [| x items IH]; intros cdf [item [Hin [Hw Hl]]].
  - destruct Hin.
  - cbn [for_each]. destruct (wanted x) eqn:Ex.
    + unfold set_column.
      destruct (Nat.eqb (List.length (column x)) (cdf_rows cdf)) eqn:El;
        cbn [bind]; [| reflexivity].
      apply IH. exists item. cbn [cdf_rows].
      destruct Hin as [-> | Hin]; [| auto].
      apply Nat.eqb_eq in El. contradiction.
    + cbn [bind]. apply IH. exists item.
      destruct Hin as [-> | Hin]; [congruence | auto].
Qed.

Section Sorted.

Variable sort_values : table -> table.
Hypothesis sort_values_perm : forall t, Permutation (sort_values t) t.

Lemma length_value_counts {R : Type} (col : R -> cell) (df : frame R) :
  List.length (value_counts sort_values col df)
  = List.length (group_sizes (column_values col df)).
Proof. unfold value_counts. apply Permutation_length, sort_values_perm. Qed.

Lemma in_value_counts {R : Type} (col : R -> cell) (df : frame R)
  (k : string) :
  In k (map fst (value_counts sort_values col df))
  <-> In k (map fst (group_sizes (column_values col df))).
Proof.
  unfold value_counts. split; apply Permutation_in, Permutation_map.
  - apply sort_values_perm.
  - symmetry. apply sort_values_perm.
Qed.

(** an area other than Services that has no record in some year of the
    data stops the construction with a [ValueError] *)
Lemma build_cdf_raises (df : frame Tidy.row) (item : string) :
  In item (map fst (group_sizes (column_values Tidy.Area df))) ->
  item <> "Services" ->
  List.length (years_of item df)
  <> List.length (group_sizes (column_values Tidy.Mod_Yr df)) ->
  build_cdf sort_values df = Raise ValueError.
Proof.
  intros Hin Hs Hl. unfold build_cdf.
  apply (for_each_set_column
           (fun item => (negb (String.eqb item "Services")
                         && negb PLOT_SERVICES) || PLOT_SERVICES)
           (fun item =>
              map snd (sort_index
                         (value_counts sort_values Tidy.Mod_Yr
                            (select (fun r => cell_eq (Tidy.Area r)
                                                (Some item)) df))))).
  exists item. cbn [cdf_rows]. repeat split.
  - apply in_value_counts. exact Hin.
  - apply String.eqb_neq in Hs. rewrite Hs. reflexivity.
  - rewrite length_map, length_sort_index, !length_value_counts. exact Hl.
Qed.

End Sorted.

End MatrixFacts.

(** C2: the run on a failing input.  With one record in Cyanides in 2019
    and one in MM8 in 2020, both years are keys of the per-year table, and
    line 164 raises [ValueError]: the list of the counts of an area has an
    entry only for the years in which the area has records, and is
    assigned to a frame with one row per year.  No matrix is built. *)
Theorem C2_matrix_build_raises :
  forall (sort_values : table -> table) (plot : table -> result unit),
    (forall t, Permutation (sort_values t) t) ->
    normalise (read_csv Samples.two_years) = Ok Samples.two_years_tidy
    /\ Permutation
         (map fst (value_counts sort_values Tidy.Mod_Yr Samples.two_years_tidy))
         ["2019"; "2020"]
    /\ build_cdf sort_values Samples.two_years_tidy = Raise ValueError
    /\ create_report sort_values plot Samples.two_years = Raise ValueError.
Proof.
  intros sort_values plot Hp.
  assert (Hn : normalise (read_csv Samples.two_years)
               = Ok Samples.two_years_tidy) by (vm_compute; reflexivity).
  assert (Hb : build_cdf sort_values Samples.two_years_tidy
               = Raise ValueError).
  { apply (MatrixFacts.build_cdf_raises sort_values Hp _ "Cyanides").
    - vm_compute. left. reflexivity.
    - discriminate.
    - vm_compute. discriminate. }
  split; [exact Hn |]. split; [| split].
  - unfold value_counts.
    change ["2019"; "2020"] with (map fst [("2019", 1); ("2020", 1)]).
    apply Permutation_map. apply (Hp [("2019", 1); ("2020", 1)]).
  - exact Hb.
  - unfold create_report. rewrite Hn. cbn [bind]. unfold analyse.
    rewrite Hb. reflexivity.
Qed.

Lemma C2_matrix_build_raises_witness :
  normalise (read_csv Samples.two_years) = Ok Samples.two_years_tidy
  /\ Permutation
       (map fst (value_counts by_count_desc Tidy.Mod_Yr Samples.two_years_tidy))
       ["2019"; "2020"]
  /\ build_cdf by_count_desc Samples.two_years_tidy = Raise ValueError
  /\ create_report by_count_desc no_plot Samples.two_years = Raise ValueError.
Proof.
  apply (C2_matrix_build_raises by_count_desc no_plot).
  exact CountFacts.by_count_desc_perm.
Defined.

(** ** The percentages *)

Module PercentFacts.

Lemma percent_cell_ok (i : num) (t : Q) :
  ~ (t == 0)%Q ->
  percent_cell i (Some t)
  = Ok (match i with
        | Some x => Some (x / t * 100)%Q
        | None => None
        end).
Proof.
  intros H. unfold percent_cell. destruct (Qeq_bool t 0) eqn:E.
  - apply Qeq_bool_eq in E. contradiction.
  - reflexivity.
Qed.

Lemma percent_cell_zero (i : num) (t : Q) :
  (t == 0)%Q -> percent_cell i (Some t) = Raise ZeroDivisionError.
Proof.
  intros H. unfold percent_cell. apply Qeq_eq_bool in H. rewrite H.
  reflexivity.
Qed.

Lemma scale_cons (i t : num) (col tl : list num) :
  scale (i :: col) (t :: tl)
  = (let* y := percent_cell i t in
     let* ys := scale col tl in
     Ok (y :: ys)).
Proof. reflexivity. Qed.


(** scaling succeeds when no total is zero *)
Lemma scale_total (col : list num) :
  forall tl,
    (forall k t, nth_error tl k = Some (Some t) -> ~ (t == 0)%Q) ->
    exists col', scale col tl = Ok col'.
Proof.
  induction col as [| i col IH]; intros tl H.
  - exists []. reflexivity.
  - destruct tl as [| t0 tl]; [exists []; reflexivity |].
    rewrite scale_cons.
    destruct (IH tl) as [ys Eys].
    { intros k t Hk. apply (H (S k) t Hk). }
    assert (Ey : exists y, percent_cell i t0 = Ok y).
    { destruct t0 as [t |].
      - rewrite percent_cell_ok; [eexists; reflexivity |].
        apply (H 0 t). reflexivity.
      - eexists. reflexivity. }
    destruct Ey as [y Ey]. rewrite Ey, Eys. cbn [bind].
    eexists. reflexivity.
Qed.



Lemma totals_fixed (met cya mm8 : list num) :
  totals (fixed_areas met cya mm8)
  = Ok (zip3 (fun i j k => add_num (add_num i j) k) mm8 met cya).
Proof. reflexivity. Qed.

Lemma reindex_fixed (cdf : counting_frame) :
  exists met cya mm8, reindex cdf = fixed_areas met cya mm8.
Proof. unfold reindex, column_titles. cbn [map]. eexists _, _, _. reflexivity. Qed.

(** one turn of the loop of lines 181-183 on the three columns *)
Lemma percent_step_cases (tl c1 c2 c3 : list num) (x : string) :
  percent_step tl (fixed_areas c1 c2 c3) x =
  if String.eqb x "Services" then Ok (fixed_areas c1 c2 c3)
  else if String.eqb x "Methacrylates"
       then let* s := scale c1 tl in Ok (fixed_areas s c2 c3)
  else if String.eqb x "Cyanides"
       then let* s := scale c2 tl in Ok (fixed_areas c1 s c3)
  else if String.eqb x "MM8"
       then let* s := scale c3 tl in Ok (fixed_areas c1 c2 s)
  else Raise KeyError.
Proof.
  unfold percent_step, get_column, fixed_areas. cbn [lookup].
  destruct (String.eqb_spec x "Services") as [-> | _]; [reflexivity |].
  cbn [negb].
  destruct (String.eqb_spec x "Methacrylates") as [-> | _].
  { cbn [bind]. destruct (scale c1 tl); reflexivity. }
  destruct (String.eqb_spec x "Cyanides") as [-> | _].
  { cbn [bind]. destruct (scale c2 tl); reflexivity. }
  destruct (String.eqb_spec x "MM8") as [-> | _].
  { cbn [bind]. destruct (scale c3 tl); reflexivity. }
  reflexivity.
Qed.

(** the loop of lines 181-183: a column is scaled when its area is among
    the items, and left as it was otherwise *)
Lemma for_each_percent (tl : list num) (items : list string) :
  forall c1 c2 c3 pct,
    NoDup items ->
    for_each (percent_step tl) items (fixed_areas c1 c2 c3) = Ok pct ->
    exists d1 d2 d3,
      pct = fixed_areas d1 d2 d3
      /\ (In "Methacrylates" items -> scale c1 tl = Ok d1)
      /\ (~ In "Methacrylates" items -> d1 = c1)
      /\ (In "Cyanides" items -> scale c2 tl = Ok d2)
      /\ (~ In "Cyanides" items -> d2 = c2)
      /\ (In "MM8" items -> scale c3 tl = Ok d3)
      /\ (~ In "MM8" items -> d3 = c3).
Proof.
  induction items as [| x items IH]; intros c1 c2 c3 pct Hnd H.
  - cbn [for_each] in H. injection H as <-. exists c1, c2, c3.
    repeat split; try reflexivity; intros [].
  - apply NoDup_cons_iff in Hnd. destruct Hnd as [Hx Hnd].
    cbn [for_each] in H. rewrite percent_step_cases in H.
    destruct (String.eqb_spec x "Services") as [-> | _].
    { cbn [bind] in H.
      destruct (IH c1 c2 c3 pct Hnd H)
        as [d1 [d2 [d3 [Hp [A1 [B1 [A2 [B2 [A3 B3]]]]]]]]].
      exists d1, d2, d3. split; [exact Hp |].
      repeat split; intros K;
        try (destruct K as [K | K]; [discriminate K | auto]);
        try (apply B1 || apply B2 || apply B3; intros K'; apply K; right;
             exact K'). }
    destruct (String.eqb_spec x "Methacrylates") as [-> | _].
    { destruct (scale c1 tl) as [s |] eqn:Es; cbn [bind] in H;
        [| discriminate].
      destruct (IH s c2 c3 pct Hnd H)
        as [d1 [d2 [d3 [Hp [A1 [B1 [A2 [B2 [A3 B3]]]]]]]]].
      exists d1, d2, d3. split; [exact Hp |].
      split; [intros _; rewrite (B1 Hx); reflexivity |].
      split; [intros K; exfalso; apply K; left; reflexivity |].
      repeat split; intros K;
        try (destruct K as [K | K]; [discriminate K | auto]);
        try (apply B2 || apply B3; intros K'; apply K; right; exact K'). }
    destruct (String.eqb_spec x "Cyanides") as [-> | _].
    { destruct (scale c2 tl) as [s |] eqn:Es; cbn [bind] in H;
        [| discriminate].
      destruct (IH c1 s c3 pct Hnd H)
        as [d1 [d2 [d3 [Hp [A1 [B1 [A2 [B2 [A3 B3]]]]]]]]].
      exists d1, d2, d3. split; [exact Hp |].
      split; [intros K; destruct K as [K | K]; [discriminate K | auto] |].
      split; [intros K; apply B1; intros K'; apply K; right; exact K' |].
      split; [intros _; rewrite (B2 Hx); reflexivity |].
      split; [intros K; exfalso; apply K; left; reflexivity |].
      split; [intros K; destruct K as [K | K]; [discriminate K | auto] |].
      intros K; apply B3; intros K'; apply K; right; exact K'. }
    destruct (String.eqb_spec x "MM8") as [-> | _].
    { destruct (scale c3 tl) as [s |] eqn:Es; cbn [bind] in H;
        [| discriminate].
      destruct (IH c1 c2 s pct Hnd H)
        as [d1 [d2 [d3 [Hp [A1 [B1 [A2 [B2 [A3 B3]]]]]]]]].
      exists d1, d2, d3. split; [exact Hp |].
      split; [intros K; destruct K as [K | K]; [discriminate K | auto] |].
      split; [intros K; apply B1; intros K'; apply K; right; exact K' |].
      split; [intros K; destruct K as [K | K]; [discriminate K | auto] |].
      split; [intros K; apply B2; intros K'; apply K; right; exact K' |].
      split; [intros _; rewrite (B3 Hx); reflexivity |].
      intros K; exfalso; apply K; left; reflexivity. }
    cbn [bind] in H. discriminate.
Qed.

(** the loop returns when every item is a fixed area or Services and no
    total is zero *)
Lemma for_each_percent_total (tl : list num) (items : list string) :
  (forall x, In x items -> x = "Services" \/ In x column_titles) ->
  (forall k t, nth_error tl k = Some (Some t) -> ~ (t == 0)%Q) ->
  forall c1 c2 c3,
    exists pct, for_each (percent_step tl) items (fixed_areas c1 c2 c3) = Ok pct.
Proof.
  intros Hitems Hz.
  induction items as [| x items IH]; intros c1 c2 c3.
  - eexists. reflexivity.
  - assert (Hrest : forall y, In y items ->
                      y = "Services" \/ In y column_titles).
    { intros y Hy. apply Hitems. right. exact Hy. }
    specialize (IH Hrest).
    cbn [for_each]. rewrite percent_step_cases.
    destruct (Hitems x (or_introl eq_refl)) as [-> | [<- | [<- | [<- | []]]]];
      cbn [String.eqb Ascii.eqb Bool.eqb].
    + cbn [bind]. apply IH.
    + destruct (scale_total c1 tl Hz) as [s ->]. cbn [bind]. apply IH.
    + destruct (scale_total c2 tl Hz) as [s ->]. cbn [bind]. apply IH.
    + destruct (scale_total c3 tl Hz) as [s ->]. cbn [bind]. apply IH.
Qed.

End PercentFacts.




(** * Further properties of the script *)

(** ** The Services rewrite, line 138 *)

Module ServicesRewrite.
Import Re.

Lemma star_dot_rest (s : string) (i : nat) :
  Spec.all Chars.is_dot s = true -> star Chars.is_dot rest_of i s = Some "".
Proof.
  revert i. induction s as [| c s IH]; intros i H; cbn [star Spec.all] in *.
  - reflexivity.
  - apply andb_prop in H. destruct H as [Hc Hs].
    rewrite Hc, (IH (S i) Hs). reflexivity.
Qed.

(** [s*(.+)] takes a text of one line, not empty, to its end *)
Lemma tail_to_end (t : string) (i : nat) :
  t <> "" -> Spec.all Chars.is_dot t = true ->
  star (Ascii.eqb "s") (one Chars.is_dot (star Chars.is_dot rest_of)) i t
  = Some "".
Proof.
  revert i. induction t as [| c t IH]; intros i Hne Hd; [congruence |].
  cbn [Spec.all] in Hd. apply andb_prop in Hd. destruct Hd as [Hc Ht].
  cbn [star].
  assert (K : one Chars.is_dot (star Chars.is_dot rest_of) i (String c t)
              = Some "").
  { unfold one. rewrite Hc. apply star_dot_rest. exact Ht. }
  destruct (Ascii.eqb "s" c); [| exact K].
  destruct t as [| d t].
  - cbn [star]. unfold one at 1. cbn [orelse]. exact K.
  - rewrite IH; [reflexivity | discriminate | exact Ht].
Qed.

Lemma services_at (t : string) (i : nat) :
  t <> "" -> Spec.all Chars.is_dot t = true ->
  match_at Patterns.services_regex i ("Service" ++ t)%string = Some "".
Proof.
  intros Hne Hd. unfold match_at, Patterns.services_regex.
  cbn [word run append one Ascii.eqb Bool.eqb].
  apply tail_to_end; assumption.
Qed.

Lemma services_sub_prefix (t : string) :
  t <> "" -> Spec.all Chars.is_dot t = true ->
  sub Patterns.services_regex "Services" ("Service" ++ t)%string
  = "Services".
Proof.
  intros Hne Hd. unfold sub.
  cbn [append String.length sub_from].
  change (String "S" (String "e" (String "r" (String "v" (String "i"
            (String "c" (String "e" t)))))))
    with ("Service" ++ t)%string.
  rewrite (services_at t 0 Hne Hd).
  cbn [String.length Nat.ltb Nat.leb]. reflexivity.
Qed.

(** no match where the text has no capital S *)
Lemma services_no_match (s : string) (i : nat) :
  Spec.has (Ascii.eqb "S") s = false ->
  match_at Patterns.services_regex i s = None.
Proof.
  intros H. unfold match_at, Patterns.services_regex. cbn [word run].
  destruct s as [| c s]; [reflexivity |].
  cbn [Spec.has] in H. apply orb_false_elim in H. destruct H as [Hc _].
  unfold one at 1. rewrite Hc. reflexivity.
Qed.

Lemma sub_from_no_capital (repl : string) (fuel : nat) :
  forall i s, Spec.has (Ascii.eqb "S") s = false ->
    sub_from fuel Patterns.services_regex repl i s = s.
Proof.
  induction fuel as [| fuel IH]; intros i s H; cbn [sub_from];
    [reflexivity |].
  rewrite (services_no_match s i H).
  destruct s as [| c s]; [reflexivity |].
  cbn [Spec.has] in H. apply orb_false_elim in H. destruct H as [_ Hs].
  rewrite (IH (S i) s Hs). reflexivity.
Qed.

End ServicesRewrite.

(** ** Values that the cleanup keeps *)

Module CleanupEdges.
Import Re.
Import ReFacts.

Lemma word_not_space (c : ascii) :
  Chars.is_word c = true -> Chars.is_space c = false.
Proof.
  destruct c as [[] [] [] [] [] [] [] []]; vm_compute; intros H;
    (reflexivity || discriminate H).
Qed.

Lemma word_not_dash (c : ascii) :
  Chars.is_word c = true -> Ascii.eqb "-" c = false.
Proof.
  destruct c as [[] [] [] [] [] [] [] []]; vm_compute; intros H;
    (reflexivity || discriminate H).
Qed.

Lemma word_not_newline (c : ascii) :
  Chars.is_word c = true -> Ascii.eqb c Chars.newline = false.
Proof.
  destruct c as [[] [] [] [] [] [] [] []]; vm_compute; intros H;
    (reflexivity || discriminate H).
Qed.

Lemma digit_word (c : ascii) :
  Chars.is_ascii_digit c = true -> Chars.is_word c = true.
Proof.
  destruct c as [[] [] [] [] [] [] [] []]; vm_compute; intros H;
    (reflexivity || discriminate H).
Qed.

Lemma digit_not_n (c : ascii) :
  Chars.is_ascii_digit c = true -> Spec.is_n c = false.
Proof.
  destruct c as [[] [] [] [] [] [] [] []]; vm_compute; intros H;
    (reflexivity || discriminate H).
Qed.

Lemma digit_not_capital_s (c : ascii) :
  Chars.is_ascii_digit c = true -> Ascii.eqb "S" c = false.
Proof.
  destruct c as [[] [] [] [] [] [] [] []]; vm_compute; intros H;
    (reflexivity || discriminate H).
Qed.

Lemma digit_not_letter (c : ascii) :
  Chars.is_ascii_digit c = true -> Chars.is_ascii_letter c = false.
Proof.
  destruct c as [[] [] [] [] [] [] [] []]; vm_compute; intros H;
    (reflexivity || discriminate H).
Qed.

(** a pattern that begins with [^] matches at offset 0 only *)
Lemma bol_anchored (x : regex) (i : nat) (s : string) :
  i <> 0 -> match_at (Grp (Cat Bol x)) i s = None.
Proof.
  intros Hi. unfold match_at. cbn [run]. apply Nat.eqb_neq in Hi.
  rewrite Hi. reflexivity.
Qed.

Lemma search_bol (x : regex) (s : string) :
  search (Grp (Cat Bol x)) s
  = match run x rest_of 0 s with Some _ => true | None => false end.
Proof.
  rewrite search_anchored by (intros; apply bol_anchored; assumption).
  reflexivity.
Qed.

(** [p*$] fails on a text with a character, other than a line break,
    that is not in [p] *)
Lemma star_end_none (p : ascii -> bool) (s : string) :
  forall i,
    Spec.has (fun c => negb (p c) && negb (Ascii.eqb c Chars.newline)) s
    = true ->
    star p (run Eol rest_of) i s = None.
Proof.
  induction s as [| c s IH]; intros i H; cbn [Spec.has] in H;
    [discriminate |].
  assert (E : run Eol rest_of i (String c s) = None).
  { cbn [run]. unfold at_end. destruct s as [| d s]; [| reflexivity].
    cbn [Spec.has] in H. rewrite orb_false_r in H.
    apply andb_prop in H. destruct H as [_ H].
    apply negb_true_iff in H. rewrite H. reflexivity. }
  cbn [star]. destruct (p c) eqn:Ep.
  - cbn [negb andb orb] in H. rewrite (IH (S i) H). cbn [orelse]. exact E.
  - exact E.
Qed.

Lemma search_star_none (p : ascii -> bool) (s : string) :
  Spec.has (fun c => negb (p c) && negb (Ascii.eqb c Chars.newline)) s = true ->
  search (Grp (Cat Bol (Cat (Star p) Eol))) s = false.
Proof.
  intros H. rewrite search_bol. cbn [run].
  change (star p (fun i s => if at_end s then rest_of i s else None) 0 s)
    with (star p (run Eol rest_of) 0 s).
  rewrite (star_end_none p s 0 H). reflexivity.
Qed.

Lemma na_needs_n (c : ascii) (t : string) :
  Spec.is_n c = false -> search Patterns.na_regex (String c t) = false.
Proof.
  intros H. destruct (search Patterns.na_regex (String c t)) eqn:E;
    [| reflexivity].
  apply na_regex_matched in E. destruct E as [c' [t' [Heq [Hn _]]]].
  injection Heq as <- <-. congruence.
Qed.

(** a value that starts with a letter, a digit or the underscore, but not
    with n or N, is not a placeholder token and is not made of zeros only,
    matches no pattern of the cleanup *)
Lemma word_first_kept (c : ascii) (t : string) :
  Chars.is_word c = true -> Spec.is_n c = false ->
  Spec.placeholder (String c t) = false ->
  Spec.has (fun x => negb (Ascii.eqb "0" x) && negb (Ascii.eqb x Chars.newline))
    (String c t) = true ->
  cleanup_matches (String c t) = false.
Proof.
  intros Hw Hn Hp Hz. unfold cleanup_matches.
  rewrite (na_needs_n c t Hn).
  change (existsb (String.eqb (String c t)) Patterns.placeholders)
    with (Spec.placeholder (String c t)).
  rewrite Hp.
  unfold Patterns.blank_regex, Patterns.zeros_regex, Patterns.dashes_regex.
  rewrite (search_star_none Chars.is_space).
  2: { cbn [Spec.has]. rewrite (word_not_space c Hw), (word_not_newline c Hw).
       reflexivity. }
  rewrite (search_star_none (Ascii.eqb "0") _ Hz).
  rewrite (search_star_none (Ascii.eqb "-")).
  2: { cbn [Spec.has]. rewrite (word_not_dash c Hw), (word_not_newline c Hw).
       reflexivity. }
  unfold Patterns.symbol_regex. rewrite search_bol. cbn [run]. unfold one.
  unfold Chars.is_nonword. rewrite Hw. reflexivity.
Qed.

End CleanupEdges.

(** ** Trimming *)

Module StripFacts.

Lemma lstrip_head (s : string) (c : ascii) (t : string) :
  lstrip s = String c t -> Chars.is_space c = false.
Proof.
  induction s as [| d s IH]; cbn [lstrip]; [discriminate |].
  destruct (Chars.is_space d) eqn:E; [exact IH |].
  intros H. injection H as <- _. exact E.
Qed.

Lemma rstrip_head (c : ascii) (t : string) :
  Chars.is_space c = false -> exists u, rstrip (String c t) = String c u.
Proof.
  intros H. cbn [rstrip]. destruct (rstrip t) as [| d u].
  - rewrite H. eexists. reflexivity.
  - eexists. reflexivity.
Qed.

Lemma rstrip_last (s : string) (d : ascii) :
  last_char (rstrip s) = Some d -> Chars.is_space d = false.
Proof.
  induction s as [| c s IH]; cbn [rstrip]; [discriminate |].
  destruct (rstrip s) as [| e u] eqn:E.
  - destruct (Chars.is_space c) eqn:Ec; cbn [last_char]; [discriminate |].
    intros H. injection H as <-. exact Ec.
  - cbn [last_char]. exact IH.
Qed.

Lemma last_char_some (c : ascii) (t : string) :
  exists d, last_char (String c t) = Some d.
Proof.
  revert c. induction t as [| e t IH]; intros c; cbn [last_char].
  - eexists. reflexivity.
  - apply IH.
Qed.

(** what [strip] leaves of a text with a character that is no whitespace *)
Lemma strip_trimmed (s : string) :
  Spec.has (fun c => negb (Chars.is_space c)) s = true ->
  trimmed (strip s) = true.
Proof.
  intros H. unfold strip.
  assert (L : exists c t, lstrip s = String c t).
  { induction s as [| c s IH]; cbn [Spec.has] in H; [discriminate |].
    cbn [lstrip]. destruct (Chars.is_space c) eqn:E.
    - apply IH. exact H.
    - eexists _, _. reflexivity. }
  destruct L as [c [t L]]. rewrite L.
  pose proof (lstrip_head s c t L) as Hc.
  destruct (rstrip_head c t Hc) as [u Hu].
  unfold trimmed. rewrite Hu.
  destruct (last_char_some c u) as [d Hd]. rewrite Hd.
  rewrite Hc. rewrite <- Hu in Hd. rewrite (rstrip_last _ d Hd). reflexivity.
Qed.

Lemma rstrip_id (s : string) :
  Spec.all (fun c => negb (Chars.is_space c)) s = true -> rstrip s = s.
Proof.
  induction s as [| c s IH]; cbn [Spec.all rstrip]; [reflexivity |].
  intros H. apply andb_prop in H. destruct H as [Hc Hs].
  rewrite (IH Hs). apply negb_true_iff in Hc. rewrite Hc.
  destruct s; reflexivity.
Qed.

Lemma strip_id (s : string) :
  Spec.all (fun c => negb (Chars.is_space c)) s = true -> strip s = s.
Proof.
  intros H. unfold strip.
  assert (L : lstrip s = s).
  { destruct s as [| c s]; [reflexivity |]. cbn [Spec.all] in H.
    apply andb_prop in H. destruct H as [Hc _].
    apply negb_true_iff in Hc. cbn [lstrip]. rewrite Hc. reflexivity. }
  rewrite L. apply rstrip_id. exact H.
Qed.

Lemma has_app (p : ascii -> bool) (a b : string) :
  Spec.has p (a ++ b) = Spec.has p a || Spec.has p b.
Proof.
  induction a as [| c a IH]; cbn [append Spec.has]; [reflexivity |].
  rewrite IH, orb_assoc. reflexivity.
Qed.

Lemma all_has (p : ascii -> bool) (s : string) :
  Spec.all p s = false -> Spec.has (fun c => negb (p c)) s = true.
Proof.
  induction s as [| c s IH]; cbn [Spec.all Spec.has]; [discriminate |].
  destruct (p c); cbn [andb negb orb]; [exact IH | reflexivity].
Qed.

End StripFacts.

(** ** The normaliser on single records *)

Module RecordFacts.

Lemma has_services_char (pre post : string) :
  Spec.has (fun c => negb (Chars.is_space c))
    (pre ++ "Services" ++ post)%string
  = true.
Proof.
  rewrite StripFacts.has_app, StripFacts.has_app.
  replace (Spec.has (fun c => negb (Chars.is_space c)) "Services") with true
    by (vm_compute; reflexivity).
  rewrite orb_true_l, orb_true_r. reflexivity.
Qed.

Lemma not_blank (s : string) :
  cleanup_matches s = false ->
  Spec.has (fun c => negb (Chars.is_space c)) s = true.
Proof.
  intros H. apply StripFacts.all_has.
  destruct (Spec.all Chars.is_space s) eqn:E; [| reflexivity].
  assert (M : cleanup_matches s = true).
  { apply CleanupFacts.class_matches. unfold cleanup_class. rewrite E.
    reflexivity. }
  congruence.
Qed.

(** the project cell of a surviving record is missing or trimmed text *)
Lemma project_cell_trimmed (c : cell) :
  project_cell c = None
  \/ exists p, project_cell c = Some p /\ trimmed p = true.
Proof.
  destruct c as [s |]; [| left; reflexivity].
  rewrite CleanupFacts.project_cell_spec.
  destruct (cleanup_matches s) eqn:E; [left; reflexivity |].
  right. eexists. split; [reflexivity |].
  apply StripFacts.strip_trimmed. unfold Re.sub.
  destruct (ServicesFacts.sub_from_shape Patterns.services_regex "Services"
              (S (String.length s)) 0 s) as [-> | [pre [post ->]]].
  - apply not_blank. exact E.
  - apply has_services_char.
Qed.

Lemma digits_facts (s : string) :
  Spec.all Chars.is_ascii_digit s = true ->
  Spec.has (Ascii.eqb "S") s = false
  /\ Spec.all (fun c => negb (Chars.is_space c)) s = true
  /\ (Spec.all (Ascii.eqb "0") s = false ->
      Spec.has (fun x => negb (Ascii.eqb "0" x)
                         && negb (Ascii.eqb x Chars.newline)) s = true).
Proof.
  induction s as [| c s IH]; cbn [Spec.all Spec.has].
  - repeat split; try reflexivity. discriminate.
  - intros H. apply andb_prop in H. destruct H as [Hc Hs].
    destruct (IH Hs) as [A [B C]].
    pose proof (CleanupEdges.digit_word c Hc) as Hw.
    rewrite (CleanupEdges.digit_not_capital_s c Hc), A.
    rewrite (CleanupEdges.word_not_space c Hw), B.
    rewrite (CleanupEdges.word_not_newline c Hw).
    repeat split; try reflexivity.
    destruct (Ascii.eqb "0" c); cbn [andb negb orb]; [exact C | reflexivity].
Qed.

Lemma digit_first_no_placeholder (c : ascii) (t : string) :
  Chars.is_ascii_digit c = true -> Spec.placeholder (String c t) = false.
Proof.
  destruct c as [[] [] [] [] [] [] [] []]; vm_compute; intros H;
    (reflexivity || discriminate H).
Qed.

(** a code made of digits, not all of them zero, passes lines 136-139
    unchanged *)
Lemma digits_kept (s : string) :
  Spec.all Chars.is_ascii_digit s = true ->
  Spec.all (Ascii.eqb "0") s = false ->
  project_cell (Some s) = Some s.
Proof.
  intros Hd Hz. destruct (digits_facts s Hd) as [A [B C]].
  rewrite CleanupFacts.project_cell_spec.
  assert (K : cleanup_matches s = false).
  { destruct s as [| c t]; [discriminate Hz |].
    cbn [Spec.all] in Hd. apply andb_prop in Hd. destruct Hd as [Hc _].
    apply CleanupEdges.word_first_kept.
    - apply CleanupEdges.digit_word. exact Hc.
    - apply CleanupEdges.digit_not_n. exact Hc.
    - apply digit_first_no_placeholder. exact Hc.
    - apply C. exact Hz. }
  rewrite K. unfold Re.sub.
  rewrite (ServicesRewrite.sub_from_no_capital "Services" _ 0 s A).
  rewrite (StripFacts.strip_id s B). reflexivity.
Qed.

Lemma cleaned_service (t : string) :
  cleanup_cell (Some ("Service" ++ t)%string) = Some ("Service" ++ t)%string.
Proof.
  rewrite CleanupFacts.cleanup_cell_spec.
  assert (K : cleanup_matches ("Service" ++ t) = false).
  { change ("Service" ++ t)%string with (String "S" ("ervice" ++ t)).
    apply CleanupEdges.word_first_kept; reflexivity. }
  rewrite K. reflexivity.
Qed.

Lemma status_kept (c : cell) :
  c <> Some "Cancelled" -> cell_ne (cleanup_cell c) (Some "Cancelled") = true.
Proof.
  intros H. destruct c as [s |]; [| reflexivity].
  rewrite CleanupFacts.cleanup_cell_spec.
  destruct (cleanup_matches s); [reflexivity |].
  cbn [cell_ne]. apply negb_true_iff. apply String.eqb_neq. congruence.
Qed.

End RecordFacts.

(** a record of the normalised frame is the tidied input row of its label *)
Lemma normalised_record (rows : list Raw.row) (out : frame Tidy.row)
  (i : nat) (r : Raw.row) (r' : Tidy.row) :
  normalise (read_csv rows) = Ok out ->
  nth_error rows i = Some r -> In (i, r') out ->
  survives r = true /\ r' = tidy r.
Proof.
  intros Hn Hr Hin.
  apply (NormaliseFacts.normalise_rows rows out Hn) in Hin.
  destruct Hin as [r0 [Hr0 [Hs ->]]].
  rewrite Hr in Hr0. injection Hr0 as <-. split; [exact Hs | reflexivity].
Qed.

(** X1.  Line 138 turns a cell that begins with [Service] and goes on, on
    the same line, with at least one more character into exactly
    [Services]; so does the area of a surviving record. *)
Theorem services_prefix_collapsed :
  forall t : string,
    t <> "" -> Spec.all Chars.is_dot t = true ->
    services_cell (Some ("Service" ++ t)%string) = Some "Services"
    /\ (forall rows out i r r',
           normalise (read_csv rows) = Ok out ->
           nth_error rows i = Some r -> In (i, r') out ->
           Raw.Area r = Some ("Service" ++ t)%string ->
           Tidy.Area r' = Some "Services").
Proof.
  intros t Hne Hd.
  assert (E : services_cell (Some ("Service" ++ t)%string) = Some "Services").
  { unfold services_cell, replace_regex_str, option_map.
    rewrite (ServicesRewrite.services_sub_prefix t Hne Hd). reflexivity. }
  split; [exact E |].
  intros rows out i r r' Hn Hr Hin Ha.
  destruct (normalised_record rows out i r r' Hn Hr Hin) as [_ ->].
  change (Tidy.Area (tidy r))
    with (services_cell (cleanup_cell (Raw.Area r))).
  rewrite Ha, RecordFacts.cleaned_service. exact E.
Qed.

Lemma services_prefix_collapsed_witness :
  services_cell (Some "Services - 3rd Party Equipment") = Some "Services"
  /\ (forall r', In (6, r') Samples.one_year_tidy ->
                 Tidy.Area r' = Some "Services").
Proof.
  destruct (services_prefix_collapsed "s - 3rd Party Equipment")
    as [H1 H2]; [discriminate | reflexivity |].
  split; [exact H1 |].
  intros r' Hin.
  apply (H2 Samples.one_year Samples.one_year_tidy 6
           (Samples.active "2019-0007" "Services - 3rd Party Equipment"
              "BOIL" "N.a") r').
  - vm_compute. reflexivity.
  - reflexivity.
  - exact Hin.
  - reflexivity.
Defined.

(** X2.  Line 138 leaves every cell without a capital S as it is, the
    missing value included; the three fixed areas are such cells. *)
Theorem services_rewrite_fixed :
  forall c : cell,
    (forall s, c = Some s -> Spec.has (Ascii.eqb "S") s = false) ->
    services_cell c = c.
Proof.
  intros c H. destruct c as [s |]; [| reflexivity].
  unfold services_cell, replace_regex_str, option_map, Re.sub.
  rewrite (ServicesRewrite.sub_from_no_capital "Services" _ 0 s
             (H s eq_refl)).
  reflexivity.
Qed.

Lemma services_rewrite_fixed_witness :
  services_cell (Some "Methacrylates") = Some "Methacrylates"
  /\ services_cell (Some "Cyanides") = Some "Cyanides"
  /\ services_cell (Some "MM8") = Some "MM8".
Proof.
  split; [| split]; apply services_rewrite_fixed; intros s H;
    injection H as <-; reflexivity.
Defined.

(** X3.  Line 125 drops a record whose project is, as text, its own
    modification code (when no cleanup pattern matches that text); a record
    whose project is missing after the cleanup passes this filter, and is
    kept unless its status is [Cancelled]. *)
Theorem self_reference_dropped :
  forall rows out i r,
    normalise (read_csv rows) = Ok out ->
    nth_error rows i = Some r ->
    (forall s, Raw.Project r = Some s -> Raw.Mod_No r = Some s ->
               cleanup_matches s = false ->
               forall r', ~ In (i, r') out)
    /\ (cleanup_cell (Raw.Project r) = None ->
        Raw.Status r <> Some "Cancelled" ->
        In (i, tidy r) out).
Proof.
  intros rows out i r Hn Hr. split.
  - intros s Hp Hm Hk r' Hin.
    destruct (normalised_record rows out i r r' Hn Hr Hin) as [Hs _].
    unfold survives, cleaned in Hs. cbn [Raw.map_cells Raw.Project Raw.Mod_No]
      in Hs.
    rewrite Hp, Hm, CleanupFacts.cleanup_cell_spec, Hk in Hs.
    cbn [cell_ne] in Hs. rewrite String.eqb_refl in Hs. discriminate.
  - intros Hp Hs.
    apply (NormaliseFacts.normalise_rows rows out Hn).
    exists r. repeat split; [exact Hr |].
    unfold survives, cleaned.
    cbn [Raw.map_cells Raw.Project Raw.Mod_No Raw.Status].
    rewrite Hp, (RecordFacts.status_kept _ Hs). reflexivity.
Qed.

Lemma self_reference_dropped_witness :
  (forall r', ~ In (0, r') Inputs.self_reference_tidy)
  /\ In (2, tidy (Samples.active "2020-0001" "MM8" "ACH8" "   "))
       Samples.scenario_tidy.
Proof.
  split.
  - apply (proj1 (self_reference_dropped Inputs.self_reference
                    Inputs.self_reference_tidy 0
                    (Samples.active "2019-0001" "MM8" "ACH8" "2019-0001")
                    eq_refl eq_refl) "2019-0001");
      reflexivity.
  - apply (proj2 (self_reference_dropped Samples.scenario
                    Samples.scenario_tidy 2
                    (Samples.active "2020-0001" "MM8" "ACH8" "   ")
                    eq_refl eq_refl)).
    + reflexivity.
    + discriminate.
Defined.

(** X4.  In the normalised frame a project is either missing or a text
    that is not empty and has no whitespace at either end: lines 136-139
    leave no blank and no padded project behind. *)
Theorem project_missing_or_trimmed :
  forall rows out i r',
    normalise (read_csv rows) = Ok out -> In (i, r') out ->
    Tidy.Project r' = None
    \/ exists p, Tidy.Project r' = Some p /\ trimmed p = true.
Proof.
  intros rows out i r' Hn Hin.
  pose proof Hin as Hin'.
  apply (NormaliseFacts.normalise_rows rows out Hn) in Hin'.
  destruct Hin' as [r [Hr _]].
  rewrite (normalised_project rows out i r r' Hn Hr Hin).
  apply RecordFacts.project_cell_trimmed.
Qed.

Lemma project_missing_or_trimmed_witness :
  Tidy.Project (tidy (Samples.active "2019-0001" "Cyanides" "CYN1" "5228285"))
  = None
  \/ exists p,
       Tidy.Project
         (tidy (Samples.active "2019-0001" "Cyanides" "CYN1" "5228285"))
       = Some p
       /\ trimmed p = true.
Proof.
  apply (project_missing_or_trimmed Samples.scenario Samples.scenario_tidy 0).
  - vm_compute. reflexivity.
  - left. reflexivity.
Defined.

(** X5.  A project code made of digits, not all of them zero, reaches the
    normalised frame exactly as it was entered. *)
Theorem numeric_project_kept :
  forall s : string,
    Spec.all Chars.is_ascii_digit s = true ->
    Spec.all (Ascii.eqb "0") s = false ->
    project_cell (Some s) = Some s
    /\ (forall rows out i r r',
           normalise (read_csv rows) = Ok out ->
           nth_error rows i = Some r -> In (i, r') out ->
           Raw.Project r = Some s ->
           Tidy.Project r' = Some s).
Proof.
  intros s Hd Hz.
  pose proof (RecordFacts.digits_kept s Hd Hz) as E.
  split; [exact E |].
  intros rows out i r r' Hn Hr Hin Hp.
  rewrite (normalised_project rows out i r r' Hn Hr Hin), Hp. exact E.
Qed.

Lemma numeric_project_kept_witness :
  project_cell (Some "5228285") = Some "5228285"
  /\ (forall r', In (0, r') Samples.scenario_tidy ->
                 Tidy.Project r' = Some "5228285").
Proof.
  destruct (numeric_project_kept "5228285") as [H1 H2];
    [reflexivity | reflexivity |].
  split; [exact H1 |].
  intros r' Hin.
  apply (H2 Samples.scenario Samples.scenario_tidy 0
           (Samples.active "2019-0001" "Cyanides" "CYN1" "5228285") r').
  - vm_compute. reflexivity.
  - reflexivity.
  - exact Hin.
  - reflexivity.
Defined.

(** ** Labels and the split of the code *)

Module FrameFacts.

Lemma labels_sorted {R : Type} (p : nat * R -> bool) (rows : list R) :
  forall a,
    StronglySorted lt (map fst (filter p (combine (seq a (List.length rows))
                                            rows)))
    /\ Forall (fun i => a <= i < a + List.length rows)
         (map fst (filter p (combine (seq a (List.length rows)) rows))).
Proof.
  induction rows as [| r rows IH]; intros a;
    cbn [List.length seq combine filter map].
  - split; constructor.
  - destruct (IH (S a)) as [Hs Hf].
    assert (Hf' : Forall (fun i => a <= i < a + S (List.length rows))
                    (map fst (filter p (combine (seq (S a) (List.length rows))
                                          rows)))).
    { eapply Forall_impl; [| exact Hf]. cbn beta. intros i Hi. lia. }
    destruct (p (a, r)); cbn [map fst].
    + split.
      * constructor; [exact Hs |].
        eapply Forall_impl; [| exact Hf]. cbn beta. intros i Hi. lia.
      * constructor; [lia | exact Hf'].
    + split; [exact Hs | exact Hf'].
Qed.




End FrameFacts.

(** X6.  The normalised frame holds a selection of the input records
    under their own labels and in file order: no label twice, none that
    the input does not have, and no more records than the input. *)
Theorem normalised_labels :
  forall rows out,
    normalise (read_csv rows) = Ok out ->
    StronglySorted lt (map fst out)
    /\ Forall (fun i => i < List.length rows) (map fst out)
    /\ List.length out <= List.length rows.
Proof.
  intros rows out H. rewrite NormaliseFacts.normalise_spec in H.
  destruct (Nat.ltb 1 _); [| discriminate]. injection H as <-.
  unfold map_rows, select, read_csv. rewrite map_map. cbn [fst].
  destruct (FrameFacts.labels_sorted (fun ir => survives (snd ir)) rows 0)
    as [Hs Hf].
  split; [exact Hs |]. split.
  - eapply Forall_impl; [| exact Hf]. cbn beta. intros i Hi. lia.
  - rewrite length_map.
    etransitivity; [apply filter_length_le |].
    rewrite length_combine, length_seq. lia.
Qed.

Lemma normalised_labels_witness :
  StronglySorted lt (map fst Samples.scenario_tidy)
  /\ Forall (fun i => i < List.length Samples.scenario)
       (map fst Samples.scenario_tidy)
  /\ List.length Samples.scenario_tidy <= List.length Samples.scenario.
Proof.
  apply (normalised_labels Samples.scenario Samples.scenario_tidy).
  vm_compute. reflexivity.
Defined.



(** X8.  When the split returns, a surviving record whose code has no
    separator keeps the whole code as its year and has no identifier, and
    a record whose code is missing has neither. *)
Theorem code_without_separator :
  forall rows out i r r',
    normalise (read_csv rows) = Ok out ->
    nth_error rows i = Some r -> In (i, r') out ->
    (forall code,
        services_cell (cleanup_cell (Raw.Mod_No r)) = Some code ->
        count_char "-" code = 0 ->
        Tidy.Mod_Yr r' = Some code /\ Tidy.Mod_Id r' = None)
    /\ (cleanup_cell (Raw.Mod_No r) = None ->
        Tidy.Mod_Yr r' = None /\ Tidy.Mod_Id r' = None).
Proof.
  intros rows out i r r' Hn Hr Hin.
  destruct (normalised_record rows out i r r' Hn Hr Hin) as [_ ->].
  change (Tidy.Mod_Yr (tidy r))
    with (year_part (services_cell (cleanup_cell (Raw.Mod_No r)))).
  change (Tidy.Mod_Id (tidy r))
    with (id_part (services_cell (cleanup_cell (Raw.Mod_No r)))).
  split.
  - intros code Hc Hz. rewrite Hc.
    unfold year_part, id_part, split_code, option_map, part.
    rewrite (SplitFacts.split_whole "-" code Hz). split; reflexivity.
  - intros Hc. rewrite Hc. split; reflexivity.
Qed.

Lemma code_without_separator_witness :
  Tidy.Mod_Yr (tidy (Samples.active "2019/0001" "MM8" "ACH8" "P1"))
  = Some "2019/0001"
  /\ Tidy.Mod_Id (tidy (Samples.active "2019/0001" "MM8" "ACH8" "P1")) = None.
Proof.
  apply (proj1 (code_without_separator Inputs.no_separator
                  Inputs.no_separator_tidy 0
                  (Samples.active "2019/0001" "MM8" "ACH8" "P1")
                  (tidy (Samples.active "2019/0001" "MM8" "ACH8" "P1"))
                  eq_refl eq_refl (or_introl eq_refl)) "2019/0001");
    reflexivity.
Defined.

(** ** The count tables *)

Module TableFacts.

Lemma compare_refl (a : string) : String.compare a a = Eq.
Proof.
  induction a as [| c a IH]; cbn [String.compare]; [reflexivity |].
  unfold Ascii.compare. rewrite N.compare_refl. exact IH.
Qed.

Lemma compare_lt_trans (a : string) :
  forall b c, String.compare a b = Lt -> String.compare b c = Lt ->
              String.compare a c = Lt.
Proof.
  induction a as [| x a IH]; intros [| y b] [| z c]; cbn [String.compare];
    try congruence.
  unfold Ascii.compare.
  destruct (N.compare_spec (N_of_ascii x) (N_of_ascii y)) as [Exy | Lxy | Gxy];
    try discriminate;
    destruct (N.compare_spec (N_of_ascii y) (N_of_ascii z)) as [Eyz | Lyz | Gyz];
    try discriminate.
  - rewrite Exy, Eyz, N.compare_refl. apply IH.
  - intros _ _. rewrite Exy. apply N.compare_lt_iff in Lyz. rewrite Lyz.
    reflexivity.
  - intros _ _. rewrite <- Eyz. apply N.compare_lt_iff in Lxy. rewrite Lxy.
    reflexivity.
  - intros _ _.
    assert (L : (N_of_ascii x < N_of_ascii z)%N) by (eapply N.lt_trans; eauto).
    apply N.compare_lt_iff in L. rewrite L. reflexivity.
Qed.

Lemma compare_gt_lt (a b : string) :
  String.compare a b = Gt -> String.compare b a = Lt.
Proof.
  intros H. rewrite String.compare_antisym, H. reflexivity.
Qed.

Lemma compare_lt_neq (a b : string) :
  String.compare a b = Lt -> String.eqb a b = false.
Proof.
  intros H. apply String.eqb_neq. intros ->. rewrite compare_refl in H.
  discriminate.
Qed.

Lemma insert_key_forall (q : string -> Prop) (k : string) (t : table) :
  q k -> Forall (fun e => q (fst e)) t ->
  Forall (fun e => q (fst e)) (insert_key k t).
Proof.
  intros Hk. induction t as [| [k' n] t IH]; intros H; cbn [insert_key].
  - constructor; [exact Hk | constructor].
  - inversion H as [| e t' He Ht]; subst.
    destruct (String.compare k k').
    + constructor; [exact He | exact Ht].
    + constructor; [exact Hk | exact H].
    + constructor; [exact He | apply IH; exact Ht].
Qed.

Lemma insert_key_sorted (k : string) (t : table) :
  StronglySorted key_lt t -> StronglySorted key_lt (insert_key k t).
Proof.
  induction t as [| [k' n] t IH]; intros H; cbn [insert_key].
  - constructor; constructor.
  - inversion H as [| e t' Hs Hf]; subst.
    destruct (String.compare k k') eqn:E.
    + constructor; [exact Hs | exact Hf].
    + constructor; [exact H |].
      constructor; [exact E |].
      eapply Forall_impl; [| exact Hf]. intros e He. unfold key_lt in *.
      cbn [fst] in *. eapply compare_lt_trans; eauto.
    + constructor; [apply IH; exact Hs |].
      apply (insert_key_forall (fun x => String.compare k' x = Lt));
        [apply compare_gt_lt; exact E | exact Hf].
Qed.

Lemma group_sizes_sorted (keys : list string) :
  StronglySorted key_lt (group_sizes keys).
Proof.
  induction keys as [| k keys IH]; cbn [group_sizes fold_right].
  - constructor.
  - apply insert_key_sorted. exact IH.
Qed.

Lemma lookup_below (k : string) (t : table) :
  Forall (fun e => String.compare k (fst e) = Lt) t -> lookup k t = None.
Proof.
  induction t as [| [k' n] t IH]; intros H; cbn [lookup]; [reflexivity |].
  inversion H as [| e t' He Ht]; subst. cbn [fst] in He.
  rewrite (compare_lt_neq k k' He). apply IH. exact Ht.
Qed.

Lemma lookup_insert_key (k k' : string) (t : table) :
  StronglySorted key_lt t ->
  lookup k (insert_key k' t)
  = if String.eqb k k' then Some (S (found (lookup k t))) else lookup k t.
Proof.
  induction t as [| [k1 n] t IH]; intros H; cbn [insert_key lookup].
  - destruct (String.eqb k k'); reflexivity.
  - inversion H as [| e t' Hs Hf]; subst.
    destruct (String.compare k' k1) eqn:E; cbn [lookup].
    + apply String.compare_eq_iff in E. subst k1.
      destruct (String.eqb k k'); reflexivity.
    + destruct (String.eqb_spec k k') as [-> | _]; [| reflexivity].
      rewrite (compare_lt_neq k' k1 E).
      rewrite (lookup_below k' t); [reflexivity |].
      eapply Forall_impl; [| exact Hf]. intros e He. unfold key_lt in He.
      cbn [fst] in He. eapply compare_lt_trans; eauto.
    + rewrite (IH Hs).
      destruct (String.eqb_spec k k') as [-> | _].
      * rewrite String.eqb_sym, (compare_lt_neq k1 k' (compare_gt_lt _ _ E)).
        reflexivity.
      * reflexivity.
Qed.

Lemma lookup_group_sizes (k : string) (keys : list string) :
  lookup k (group_sizes keys)
  = if Nat.eqb (count_occ string_dec keys k) 0 then None
    else Some (count_occ string_dec keys k).
Proof.
  induction keys as [| k' keys IH]; cbn [group_sizes fold_right count_occ];
    [reflexivity |].
  fold (group_sizes keys).
  rewrite (lookup_insert_key k k' _ (group_sizes_sorted keys)), IH.
  destruct (String.eqb_spec k k') as [-> | Hne].
  - destruct (string_dec k' k') as [_ | C]; [| congruence].
    destruct (count_occ string_dec keys k'); reflexivity.
  - destruct (string_dec k' k) as [C | _]; [congruence | reflexivity].
Qed.

Lemma lookup_in (k : string) (n : nat) (t : table) :
  lookup k t = Some n -> In (k, n) t.
Proof.
  induction t as [| [k' m] t IH]; cbn [lookup]; [discriminate |].
  destruct (String.eqb_spec k k') as [-> | _].
  - intros H. injection H as ->. left. reflexivity.
  - intros H. right. apply IH. exact H.
Qed.

Lemma in_lookup (k : string) (n : nat) (t : table) :
  StronglySorted key_lt t -> In (k, n) t -> lookup k t = Some n.
Proof.
  induction t as [| [k' m] t IH]; intros Hs Hin; [destruct Hin |].
  inversion Hs as [| e t' Hs' Hf]; subst. cbn [lookup].
  destruct Hin as [E | Hin].
  - injection E as -> ->. rewrite String.eqb_refl. reflexivity.
  - assert (L : String.compare k' k = Lt).
    { rewrite Forall_forall in Hf. apply (Hf (k, n) Hin). }
    rewrite String.eqb_sym, (compare_lt_neq k' k L). apply IH; assumption.
Qed.

Lemma sorted_keys_nodup (t : table) :
  StronglySorted key_lt t -> NoDup (map fst t).
Proof.
  induction 1 as [| e t Hs IH Hf]; cbn [map]; constructor; [| exact IH].
  intros Hin. apply in_map_iff in Hin. destruct Hin as [e' [Heq Hin]].
  rewrite Forall_forall in Hf. specialize (Hf e' Hin). unfold key_lt in Hf.
  rewrite Heq, compare_refl in Hf. discriminate.
Qed.

Lemma count_column_values {R : Type} (col : R -> cell) (k : string)
  (df : frame R) :
  count_occ string_dec (column_values col df) k = count_rows col k df.
Proof.
  unfold column_values, count_rows, select.
  induction df as [| [i r] df IH]; [reflexivity |].
  cbn [flat_map filter snd]. destruct (col r) as [s |].
  - cbn [app count_occ]. unfold cell_eq, cell_ne. rewrite negb_involutive.
    destruct (string_dec s k) as [-> | Hne].
    + rewrite String.eqb_refl. cbn [List.length]. rewrite IH. reflexivity.
    + apply String.eqb_neq in Hne. rewrite Hne. exact IH.
  - cbn [app]. unfold cell_eq, cell_ne. cbn [negb]. exact IH.
Qed.

(** the entries of [groupby(col).size()] *)
Lemma in_group_sizes {R : Type} (col : R -> cell) (df : frame R)
  (k : string) (n : nat) :
  In (k, n) (group_sizes (column_values col df))
  <-> n = count_rows col k df /\ 0 < n.
Proof.
  rewrite <- count_column_values. split.
  - intros H. apply (in_lookup _ _ _ (group_sizes_sorted _)) in H.
    rewrite lookup_group_sizes in H.
    destruct (Nat.eqb (count_occ string_dec (column_values col df) k) 0)
      eqn:E; [discriminate |].
    injection H as <-. apply Nat.eqb_neq in E. split; [reflexivity | lia].
  - intros [-> Hn]. apply lookup_in. rewrite lookup_group_sizes.
    destruct (Nat.eqb (count_occ string_dec (column_values col df) k) 0)
      eqn:E; [| reflexivity].
    apply Nat.eqb_eq in E. lia.
Qed.

Lemma value_counts_entries (sort_values : table -> table) {R : Type}
  (col : R -> cell) (df : frame R) :
  (forall t, Permutation (sort_values t) t) ->
  NoDup (map fst (value_counts sort_values col df))
  /\ (forall k n,
         In (k, n) (value_counts sort_values col df)
         <-> n = count_rows col k df /\ 0 < n).
Proof.
  intros Hp. unfold value_counts. split.
  - apply (Permutation_NoDup
             (l := map fst (group_sizes (column_values col df)))).
    + apply Permutation_map. symmetry. apply Hp.
    + apply sorted_keys_nodup, group_sizes_sorted.
  - intros k n. rewrite <- in_group_sizes. split.
    + apply Permutation_in, Hp.
    + apply Permutation_in. symmetry. apply Hp.
Qed.

End TableFacts.

(** X9.  [value_counts] of a column has one entry per value that occurs in
    the column, no key twice, and each count is the number of records with
    that value; a value that does not occur, and the missing value, have no
    entry. *)
Theorem value_counts_exact :
  forall (sort_values : table -> table) (R : Type) (col : R -> cell)
         (df : frame R),
    (forall t, Permutation (sort_values t) t) ->
    NoDup (map fst (value_counts sort_values col df))
    /\ (forall k n,
           In (k, n) (value_counts sort_values col df)
           <-> n = count_rows col k df /\ 0 < n).
Proof.
  intros sort_values R col df Hp.
  exact (TableFacts.value_counts_entries sort_values col df Hp).
Qed.

Lemma value_counts_exact_witness :
  NoDup (map fst (value_counts by_count_desc Tidy.Area Samples.one_year_tidy))
  /\ (forall k n,
         In (k, n) (value_counts by_count_desc Tidy.Area Samples.one_year_tidy)
         <-> n = count_rows Tidy.Area k Samples.one_year_tidy /\ 0 < n).
Proof.
  apply (value_counts_exact by_count_desc Tidy.row Tidy.Area
           Samples.one_year_tidy).
  exact CountFacts.by_count_desc_perm.
Defined.

Module SummaryFacts.

Lemma length_le_total (t : table) :
  (forall e, In e t -> 0 < snd e) -> List.length t <= total t.
Proof.
  induction t as [| e t IH]; intros H; [apply Nat.le_refl |].
  cbn [List.length total fold_right]. fold (total t).
  assert (0 < snd e) by (apply H; left; reflexivity).
  assert (List.length t <= total t)
    by (apply IH; intros e' He'; apply H; right; exact He').
  lia.
Qed.

Lemma count_rows_positive {R : Type} (col : R -> cell) (k : string)
  (df : frame R) (i : nat) (r : R) :
  In (i, r) df -> col r = Some k -> 0 < count_rows col k df.
Proof.
  intros Hin Hc. unfold count_rows.
  assert (H : In (i, r) (select (fun r => cell_eq (col r) (Some k)) df)).
  { unfold select. apply filter_In. split; [exact Hin |]. cbn [snd].
    rewrite Hc. unfold cell_eq, cell_ne. rewrite String.eqb_refl.
    reflexivity. }
  destruct (select _ df); [destruct H | cbn; lia].
Qed.

(** an item that is no fixed area and not Services stops the loop of
    lines 181-183 *)
Lemma for_each_percent_bad (tl : list num) (x : string)
  (items : list string) :
  In x items -> x <> "Services" -> ~ In x column_titles ->
  forall c1 c2 c3,
    exists e,
      for_each (percent_step tl) items (fixed_areas c1 c2 c3) = Raise e.
Proof.
  intros Hin Hs Ht.
  induction items as [| y items IH]; intros c1 c2 c3; [destruct Hin |].
  cbn [for_each]. rewrite PercentFacts.percent_step_cases.
  assert (Hrest : forall c1 c2 c3, y <> x ->
            exists e, for_each (percent_step tl) items (fixed_areas c1 c2 c3)
                      = Raise e).
  { intros d1 d2 d3 Hne. apply IH.
    destruct Hin as [E | Hin]; [congruence | exact Hin]. }
  destruct (String.eqb_spec y "Services") as [Ey | _].
  { cbn [bind]. apply Hrest. congruence. }
  destruct (String.eqb_spec y "Methacrylates") as [Ey | _].
  { destruct (scale c1 tl); cbn [bind]; [| eexists; reflexivity].
    apply Hrest. intros ->. apply Ht. rewrite Ey. cbn. tauto. }
  destruct (String.eqb_spec y "Cyanides") as [Ey | _].
  { destruct (scale c2 tl); cbn [bind]; [| eexists; reflexivity].
    apply Hrest. intros ->. apply Ht. rewrite Ey. cbn. tauto. }
  destruct (String.eqb_spec y "MM8") as [Ey | _].
  { destruct (scale c3 tl); cbn [bind]; [| eexists; reflexivity].
    apply Hrest. intros ->. apply Ht. rewrite Ey. cbn. tauto. }
  cbn [bind]. eexists. reflexivity.
Qed.

End SummaryFacts.

(** X10.  The three numbers of the summary of line 196 are ordered: there
    are at most as many projects as modifications with a project, and at
    most as many of those as modifications in all; the middle number counts
    the records whose project is not missing. *)
Theorem headline_ordered :
  forall (sort_values : table -> table) (plot : table -> result unit)
         (df : frame Tidy.row) (rep : report),
    (forall t, Permutation (sort_values t) t) ->
    analyse sort_values plot df = Ok rep ->
    let '(with_project, projects, all) := headline rep in
    projects <= with_project /\ with_project <= all
    /\ all = List.length df
    /\ with_project
       = List.length (select (fun r => present (Tidy.Project r)) df).
Proof.
  intros sort_values plot df rep Hp H. unfold analyse in H.
  destruct (build_cdf sort_values df) as [cdf |]; cbn [bind] in H;
    [| discriminate].
  destruct (percentages _ _) as [pct |]; cbn [bind] in H; [| discriminate].
  destruct (largest_project plot _) as [big |]; cbn [bind] in H;
    [| discriminate].
  injection H as <-. cbn [headline].
  rewrite (CountFacts.total_value_counts sort_values Hp).
  repeat split.
  - rewrite <- (CountFacts.total_value_counts sort_values Hp).
    apply SummaryFacts.length_le_total. intros [k n] He.
    apply (TableFacts.value_counts_entries sort_values Tidy.Project df Hp)
      in He.
    cbn [snd]. apply He.
  - apply CountFacts.length_select.
Qed.

Lemma headline_ordered_witness :
  let '(with_project, projects, all) := headline Inputs.one_year_report in
  projects <= with_project /\ with_project <= all
  /\ all = List.length Samples.one_year_tidy
  /\ with_project
     = List.length
         (select (fun r => present (Tidy.Project r)) Samples.one_year_tidy).
Proof.
  apply (headline_ordered by_count_desc no_plot Samples.one_year_tidy
           Inputs.one_year_report CountFacts.by_count_desc_perm).
  vm_compute. reflexivity.
Defined.

(** X11.  An area other than Services and the three fixed areas stops the
    run: if the matrix is built at all, line 183 looks the area up in a
    frame that line 172 has cut down to the three fixed columns. *)
Theorem unknown_area_raises :
  forall (sort_values : table -> table) (plot : table -> result unit)
         (df : frame Tidy.row) (x : string),
    (forall t, Permutation (sort_values t) t) ->
    (exists i r, In (i, r) df /\ Tidy.Area r = Some x) ->
    x <> "Services" -> ~ In x column_titles ->
    exists e, analyse sort_values plot df = Raise e.
Proof.
  intros sort_values plot df x Hp [i [r [Hin Ha]]] Hs Ht.
  assert (Hx : In x (map fst (value_counts sort_values Tidy.Area df))).
  { apply in_map_iff.
    exists (x, count_rows Tidy.Area x df). split; [reflexivity |].
    apply (TableFacts.value_counts_entries sort_values Tidy.Area df Hp).
    split; [reflexivity |].
    exact (SummaryFacts.count_rows_positive Tidy.Area x df i r Hin Ha). }
  unfold analyse.
  destruct (build_cdf sort_values df) as [cdf | e]; cbn [bind];
    [| exists e; reflexivity].
  destruct (PercentFacts.reindex_fixed cdf) as [c1 [c2 [c3 E]]].
  rewrite E. unfold percentages.
  rewrite PercentFacts.totals_fixed. cbn [bind].
  destruct (SummaryFacts.for_each_percent_bad
              (zip3 (fun i j k => add_num (add_num i j) k) c3 c1 c2)
              x _ Hx Hs Ht c1 c2 c3) as [e He].
  rewrite He. cbn [bind]. exists e. reflexivity.
Qed.

Lemma unknown_area_raises_witness :
  exists e, analyse by_count_desc no_plot Inputs.other_area_tidy = Raise e.
Proof.
  apply (unknown_area_raises by_count_desc no_plot Inputs.other_area_tidy
           "Utilities" CountFacts.by_count_desc_perm).
  - exists 0. eexists. split; [left; reflexivity | reflexivity].
  - discriminate.
  - cbn. intuition discriminate.
Defined.

(** ** The join of the per-area counts *)

Module JoinFacts.

Lemma lookup_put_same {A : Type} (k : string) (v : A)
  (cols : list (string * A)) :
  lookup k (put k v cols) = Some v.
Proof.
  induction cols as [| [k' v'] cols IH]; cbn [put lookup].
  - rewrite String.eqb_refl. reflexivity.
  - destruct (String.eqb k k') eqn:E; cbn [lookup].
    + rewrite String.eqb_refl. reflexivity.
    + rewrite E. exact IH.
Qed.

Lemma lookup_put_other {A : Type} (k k' : string) (v : A)
  (cols : list (string * A)) :
  k <> k' -> lookup k (put k' v cols) = lookup k cols.
Proof.
  intros Hne. apply String.eqb_neq in Hne.
  induction cols as [| [k1 v1] cols IH]; cbn [put lookup].
  - rewrite Hne. reflexivity.
  - destruct (String.eqb_spec k' k1) as [<- | _]; cbn [lookup].
    + rewrite Hne. reflexivity.
    + destruct (String.eqb k k1); [reflexivity | exact IH].
Qed.

(** the loop of lines 161-168 when every column has the right length *)
Lemma for_each_set_column_ok (wanted : string -> bool)
  (column : string -> list nat) (items : list string) :
  forall cdf,
    (forall item, In item items -> wanted item = true ->
                  List.length (column item) = cdf_rows cdf) ->
    exists cdf',
      for_each (fun cdf item =>
                  if wanted item then set_column item (column item) cdf
                  else Ok cdf) items cdf
      = Ok cdf'
      /\ cdf_rows cdf' = cdf_rows cdf
      /\ (forall item, In item items -> wanted item = true ->
            lookup item (cdf_columns cdf') = Some (column item))
      /\ (forall item, ~ In item items \/ wanted item = false ->
            lookup item (cdf_columns cdf')
            = lookup item (cdf_columns cdf)).
Proof.
  induction items as [| x items IH]; intros cdf H.
  - exists cdf. cbn [for_each]. repeat split; try reflexivity.
    intros item [].
  - cbn [for_each]. destruct (wanted x) eqn:Ex.
    + unfold set_column.
      rewrite (proj2 (Nat.eqb_eq _ _) (H x (or_introl eq_refl) Ex)).
      cbn [bind].
      destruct (IH (mk_cdf (cdf_rows cdf)
                      (put x (column x) (cdf_columns cdf))))
        as [cdf' [E [Hr [Hin Hout]]]].
      { intros item Hi Hw. cbn [cdf_rows]. apply H; [right; exact Hi | exact Hw]. }
      exists cdf'. cbn [cdf_rows cdf_columns] in *.
      split; [exact E |]. split; [exact Hr |]. split.
      * intros item Hi Hw.
        destruct (in_dec string_dec item items) as [Hi' | Hi'];
          [apply Hin; assumption |].
        destruct Hi as [-> | Hi]; [| contradiction].
        rewrite (Hout item (or_introl Hi')). apply lookup_put_same.
      * intros item Hi.
        assert (Hne : item <> x).
        { intros ->. destruct Hi as [Hi | Hi]; [apply Hi; left; reflexivity |].
          congruence. }
        rewrite Hout.
        -- apply lookup_put_other. exact Hne.
        -- destruct Hi as [Hi | Hi]; [left | right; exact Hi].
           intros Hi'. apply Hi. right. exact Hi'.
    + cbn [bind].
      destruct (IH cdf) as [cdf' [E [Hr [Hin Hout]]]].
      { intros item Hi Hw. apply H; [right; exact Hi | exact Hw]. }
      exists cdf'. split; [exact E |]. split; [exact Hr |]. split.
      * intros item Hi Hw. apply Hin; [| exact Hw].
        destruct Hi as [-> | Hi]; [congruence | exact Hi].
      * intros item Hi. apply Hout.
        destruct Hi as [Hi | Hi]; [left | right; exact Hi].
        intros Hi'. apply Hi. right. exact Hi'.
Qed.








(** two sorted lists with the same elements are the same list *)
Lemma sorted_unique {A : Type} (below above : A -> A -> Prop) :
  (forall a b, below a b -> above b a -> False) ->
  forall l1 l2,
    StronglySorted below l1 -> StronglySorted above l2 ->
    Permutation l1 l2 -> l1 = l2.
Proof.
  intros Hx. induction l1 as [| a l1 IH]; intros l2 H1 H2 Hp.
  - apply Permutation_nil in Hp. subst. reflexivity.
  - destruct l2 as [| b l2].
    { symmetry in Hp. apply Permutation_nil in Hp. discriminate. }
    inversion H1 as [| ? ? Hs1 Hf1]; subst.
    inversion H2 as [| ? ? Hs2 Hf2]; subst.
    assert (E : a = b).
    { assert (Ha : In a (b :: l2))
        by (apply (Permutation_in _ Hp); left; reflexivity).
      assert (Hb : In b (a :: l1))
        by (apply (Permutation_in _ (Permutation_sym Hp)); left; reflexivity).
      destruct Ha as [Ha | Ha]; [congruence |].
      destruct Hb as [Hb | Hb]; [congruence |].
      exfalso. rewrite Forall_forall in Hf1, Hf2.
      exact (Hx a b (Hf1 b Hb) (Hf2 a Ha)). }
    subst b. f_equal. apply IH; [exact Hs1 | exact Hs2 |].
    apply (Permutation_cons_inv Hp).
Qed.



Lemma filter_filter_le {A : Type} (p q : A -> bool) (l : list A) :
  List.length (filter q (filter p l)) <= List.length (filter q l).
Proof.
  induction l as [| a l IH]; [apply Nat.le_refl |].
  cbn [filter]. destruct (p a); cbn [filter]; destruct (q a);
    cbn [List.length]; lia.
Qed.

Lemma count_rows_select {R : Type} (col : R -> cell) (k : string)
  (p : R -> bool) (df : frame R) :
  count_rows col k (select p df) <= count_rows col k df.
Proof. unfold count_rows, select. apply filter_filter_le. Qed.

Lemma count_rows_zero {R : Type} (col : R -> cell) (k : string)
  (df : frame R) :
  (forall i r, In (i, r) df -> col r <> Some k) -> count_rows col k df = 0.
Proof.
  unfold count_rows, select. induction df as [| [i r] df IH]; intros H;
    [reflexivity |].
  cbn [filter snd].
  assert (E : cell_eq (col r) (Some k) = false).
  { unfold cell_eq, cell_ne.
    destruct (col r) as [s |] eqn:Ec; [| reflexivity].
    rewrite negb_involutive. apply String.eqb_neq. intros ->.
    apply (H i r); [left; reflexivity | exact Ec]. }
  rewrite E. apply IH. intros j r' Hin. apply (H j r'). right. exact Hin.
Qed.

Lemma in_years (df : frame Tidy.row) (y : string) :
  In y (years df) <-> 0 < count_rows Tidy.Mod_Yr y df.
Proof.
  unfold years. rewrite in_map_iff. split.
  - intros [[k n] [E Hin]]. cbn [fst] in E. subst k.
    apply TableFacts.in_group_sizes in Hin. destruct Hin as [<- Hn].
    exact Hn.
  - intros H. exists (y, count_rows Tidy.Mod_Yr y df).
    split; [reflexivity |]. apply TableFacts.in_group_sizes. auto.
Qed.

Lemma in_years_of (item : string) (df : frame Tidy.row) (y : string) :
  In y (map fst (years_of item df))
  <-> 0 < count_rows Tidy.Mod_Yr y (of_area item df).
Proof. apply (in_years (of_area item df)). Qed.

Lemma years_of_incl (item : string) (df : frame Tidy.row) :
  incl (map fst (years_of item df)) (years df).
Proof.
  intros y Hy. apply in_years. apply in_years_of in Hy.
  pose proof (count_rows_select Tidy.Mod_Yr y
                (fun r => cell_eq (Tidy.Area r) (Some item)) df) as Hle.
  unfold of_area in Hy. lia.
Qed.

Lemma keys_sorted (t : table) :
  StronglySorted key_lt t ->
  StronglySorted (fun a b => String.compare a b = Lt) (map fst t).
Proof.
  induction 1 as [| e t Hs IH Hf]; cbn [map]; constructor; [exact IH |].
  rewrite Forall_map. exact Hf.
Qed.

Lemma years_sorted (df : frame Tidy.row) :
  StronglySorted (fun a b => String.compare a b = Lt) (years df).
Proof. apply keys_sorted, TableFacts.group_sizes_sorted. Qed.

Lemma years_nodup (df : frame Tidy.row) : NoDup (years df).
Proof. apply TableFacts.sorted_keys_nodup, TableFacts.group_sizes_sorted. Qed.

(** an area with as many years as the data has the years of the data *)
Lemma years_of_all (item : string) (df : frame Tidy.row) :
  List.length (years_of item df) = List.length (years df) ->
  map fst (years_of item df) = years df.
Proof.
  intros Hl.
  apply (sorted_unique (fun a b => String.compare a b = Lt)
           (fun a b => String.compare a b = Lt)).
  - intros a b H1 H2. rewrite String.compare_antisym, H1 in H2.
    discriminate.
  - apply (years_sorted (of_area item df)).
  - apply years_sorted.
  - apply NoDup_Permutation_bis.
    + apply (years_nodup (of_area item df)).
    + rewrite (length_map fst (years_of item df)). lia.
    + apply years_of_incl.
Qed.



(** an area has every year of the data exactly when it has as many *)
Lemma every_year_length (item : string) (df : frame Tidy.row) :
  (forall y, In y (years df) ->
             0 < count_rows Tidy.Mod_Yr y (of_area item df))
  <-> List.length (years_of item df) = List.length (years df).
Proof.
  split.
  - intros H. apply Nat.le_antisymm.
    + rewrite <- (length_map fst (years_of item df)).
      apply NoDup_incl_length;
        [apply (years_nodup (of_area item df)) | apply years_of_incl].
    + rewrite <- (length_map fst (years_of item df)).
      apply NoDup_incl_length; [apply years_nodup |].
      intros y Hy. apply in_years_of. apply H. exact Hy.
  - intros Hl y Hy. apply in_years_of. rewrite (years_of_all item df Hl).
    exact Hy.
Qed.

Lemma in_areas (sort_values : table -> table) (df : frame Tidy.row)
  (item : string) :
  (forall t, Permutation (sort_values t) t) ->
  In item (map fst (value_counts sort_values Tidy.Area df))
  <-> 0 < count_rows Tidy.Area item df.
Proof.
  intros Hp. rewrite in_map_iff. split.
  - intros [[k n] [E Hin]]. cbn [fst] in E. subst k.
    apply (TableFacts.value_counts_entries sort_values Tidy.Area df Hp)
      in Hin.
    destruct Hin as [<- Hn]. exact Hn.
  - intros H. exists (item, count_rows Tidy.Area item df).
    split; [reflexivity |].
    apply (TableFacts.value_counts_entries sort_values Tidy.Area df Hp). auto.
Qed.

Lemma count_rows_found {R : Type} (col : R -> cell) (k : string)
  (df : frame R) :
  0 < count_rows col k df -> exists i r, In (i, r) df /\ col r = Some k.
Proof.
  unfold count_rows, select. intros H.
  destruct (filter _ df) as [| [i r] l] eqn:E; [cbn in H; lia |].
  assert (Hin : In (i, r) (filter (fun ir => cell_eq (col (snd ir)) (Some k))
                             df))
    by (rewrite E; left; reflexivity).
  apply filter_In in Hin. destruct Hin as [Hin Hc]. cbn [snd] in Hc.
  exists i, r. split; [exact Hin |].
  unfold cell_eq, cell_ne in Hc. destruct (col r) as [s |]; [| discriminate].
  rewrite negb_involutive in Hc. apply String.eqb_eq in Hc. subst s.
  reflexivity.
Qed.

End JoinFacts.



(** X13.  When an area of the data other than Services has no record in
    some year of the data, line 164 raises [ValueError] and no matrix is
    built. *)
Theorem matrix_needs_every_year :
  forall (sort_values : table -> table) (df : frame Tidy.row)
         (item y : string),
    (forall t, Permutation (sort_values t) t) ->
    0 < count_rows Tidy.Area item df -> item <> "Services" ->
    0 < count_rows Tidy.Mod_Yr y df ->
    count_rows Tidy.Mod_Yr y (of_area item df) = 0 ->
    build_cdf sort_values df = Raise ValueError.
Proof.
  intros sort_values df item y Hp Hi Hs Hy Hz.
  apply (MatrixFacts.build_cdf_raises sort_values Hp df item).
  - apply in_map_iff. exists (item, count_rows Tidy.Area item df).
    split; [reflexivity |]. apply TableFacts.in_group_sizes. auto.
  - exact Hs.
  - intros Hl.
    assert (Hl' : List.length (years_of item df) = List.length (years df)).
    { unfold years. rewrite length_map. exact Hl. }
    pose proof (proj2 (JoinFacts.every_year_length item df) Hl' y
                  (proj2 (JoinFacts.in_years df y) Hy)) as Hc.
    lia.
Qed.

Lemma matrix_needs_every_year_witness :
  build_cdf by_count_desc Samples.two_years_tidy = Raise ValueError.
Proof.
  apply (matrix_needs_every_year by_count_desc Samples.two_years_tidy
           "Cyanides" "2020" CountFacts.by_count_desc_perm).
  - vm_compute. repeat constructor.
  - discriminate.
  - vm_compute. repeat constructor.
  - reflexivity.
Defined.

(** ** Smaller facts about the summary, the cleanup and the split *)

Module MiscFacts.

(** [argmax_from] keeps the first of the largest entries *)
Lemma argmax_from_first (t : table) :
  forall best,
    (argmax_from best t = best
     /\ forall x, In x t -> snd x <= snd best)
    \/ exists pre post,
         t = pre ++ argmax_from best t :: post
         /\ snd best < snd (argmax_from best t)
         /\ (forall x, In x pre -> snd x < snd (argmax_from best t))
         /\ (forall x, In x post -> snd x <= snd (argmax_from best t)).
Proof.
  induction t as [| x t IH]; intros best; cbn [argmax_from].
  - left. split; [reflexivity | intros x []].
  - destruct (Nat.ltb (snd best) (snd x)) eqn:E.
    + apply Nat.ltb_lt in E. right.
      destruct (IH x) as [[Ha Hb] | [pre [post [Ht [Hl [Hp Hq]]]]]].
      * exists [], t. rewrite Ha. cbn [app].
        repeat split; [exact E | intros y [] | exact Hb].
      * exists (x :: pre), post. cbn [app]. rewrite <- Ht.
        repeat split; [lia | | exact Hq].
        intros y [<- | Hy]; [exact Hl | apply Hp; exact Hy].
    + apply Nat.ltb_ge in E.
      destruct (IH best) as [[Ha Hb] | [pre [post [Ht [Hl [Hp Hq]]]]]].
      * left. split; [exact Ha |].
        intros y [<- | Hy]; [exact E | apply Hb; exact Hy].
      * right. exists (x :: pre), post. cbn [app]. rewrite <- Ht.
        repeat split; [exact Hl | | exact Hq].
        intros y [<- | Hy]; [lia | apply Hp; exact Hy].
Qed.

Lemma cleanup_cell_twice (c : cell) :
  cleanup_cell (cleanup_cell c) = cleanup_cell c.
Proof.
  destruct c as [s |]; [| reflexivity].
  rewrite CleanupFacts.cleanup_cell_spec.
  destruct (cleanup_matches s) eqn:E; [reflexivity |].
  rewrite CleanupFacts.cleanup_cell_spec, E. reflexivity.
Qed.

Lemma cleaned_twice (r : Raw.row) : cleaned (cleaned r) = cleaned r.
Proof.
  unfold cleaned, Raw.map_cells.
  cbn [Raw.Mod_No Raw.Area Raw.Plant Raw.Temporary_Mod Raw.Status Raw.Project].
  rewrite !cleanup_cell_twice. reflexivity.
Qed.

Lemma project_cleanup_cons (i : nat) (r : Raw.row) (df : frame Raw.row) :
  project_cleanup ((i, r) :: df)
  = if cell_ne (Raw.Project (cleaned r)) (Raw.Mod_No (cleaned r))
    then (i, cleaned r) :: project_cleanup df
    else project_cleanup df.
Proof. reflexivity. Qed.

Lemma split_parts_clean (sep : ascii) (s : string) :
  Forall (fun p => count_char sep p = 0) (split sep s).
Proof.
  induction s as [| c s IH]; cbn [split].
  - constructor; [reflexivity | constructor].
  - destruct (Ascii.eqb c sep) eqn:E.
    + constructor; [reflexivity | exact IH].
    + destruct (split sep s) as [| h t].
      * constructor; [cbn [count_char]; rewrite E; reflexivity | constructor].
      * inversion IH as [| ? ? Hh Ht]; subst.
        constructor; [cbn [count_char]; rewrite E; exact Hh | exact Ht].
Qed.

Lemma part_clean (k : nat) (c : cell) (p : string) :
  part k (split_code c) = Some p -> count_char "-" p = 0.
Proof.
  destruct c as [s |]; cbn [split_code option_map part]; [| discriminate].
  intros H. apply nth_error_In in H.
  pose proof (split_parts_clean "-" s) as F. rewrite Forall_forall in F.
  apply F. exact H.
Qed.

End MiscFacts.

(** X14.  [idxmax] names the first of the largest entries in the order of
    the table: every entry before it is smaller, none after it is larger.
    So among projects with the same largest count the summary of line 204
    reports the one that [value_counts] lists first. *)
Theorem idxmax_first :
  forall (t : table) (name : string),
    idxmax t = Ok name ->
    exists pre n post,
      t = pre ++ (name, n) :: post
      /\ n = table_max t
      /\ (forall x, In x pre -> snd x < n)
      /\ (forall x, In x post -> snd x <= n).
Proof.
  intros t name H. destruct t as [| e t]; cbn [idxmax] in H; [discriminate |].
  injection H as <-.
  pose proof (LargestFacts.argmax_from_max t e) as Hm.
  change (Nat.max (snd e) (table_max t)) with (table_max (e :: t)) in Hm.
  destruct (MiscFacts.argmax_from_first t e)
    as [[Ha Hb] | [pre [post [Ht [Hl [Hp Hq]]]]]].
  - exists [], (snd e), t. rewrite Ha in *. cbn [app].
    rewrite <- surjective_pairing.
    repeat split; [exact Hm | intros x [] | exact Hb].
  - exists (e :: pre), (snd (argmax_from e t)), post.
    rewrite <- surjective_pairing. cbn [app]. rewrite <- Ht.
    repeat split; [exact Hm | | exact Hq].
    intros x [<- | Hx]; [exact Hl | apply Hp; exact Hx].
Qed.

Lemma idxmax_first_witness :
  exists pre n post,
    [("A", 6); ("B", 9); ("C", 9)] = pre ++ ("B", n) :: post
    /\ n = table_max [("A", 6); ("B", 9); ("C", 9)]
    /\ (forall x, In x pre -> snd x < n)
    /\ (forall x, In x post -> snd x <= n).
Proof.
  apply (idxmax_first [("A", 6); ("B", 9); ("C", 9)] "B"). reflexivity.
Defined.

(** X15.  [project_cleanup] is idempotent: cleaning a cleaned frame changes
    nothing. *)
Theorem project_cleanup_idempotent :
  forall df : frame Raw.row,
    project_cleanup (project_cleanup df) = project_cleanup df.
Proof.
  induction df as [| [i r] df IH]; [reflexivity |].
  rewrite MiscFacts.project_cleanup_cons.
  destruct (cell_ne (Raw.Project (cleaned r)) (Raw.Mod_No (cleaned r))) eqn:E;
    [| exact IH].
  rewrite MiscFacts.project_cleanup_cons, MiscFacts.cleaned_twice, E, IH.
  reflexivity.
Qed.

(** X16.  The per-plant counts of an area (line 165) add up to the number
    of records of that area that have a plant, hence to no more than the
    count of the area itself. *)
Theorem plants_within_area :
  forall (sort_values : table -> table) (item : string)
         (df : frame Tidy.row),
    (forall t, Permutation (sort_values t) t) ->
    total (plants_of sort_values item df)
    = List.length (select (fun r => present (Tidy.Plant r)) (of_area item df))
    /\ total (plants_of sort_values item df) <= count_rows Tidy.Area item df.
Proof.
  intros sort_values item df Hp. unfold plants_of.
  fold (of_area item df).
  rewrite (CountFacts.total_value_counts sort_values Hp).
  split; [reflexivity |]. apply CountFacts.length_select.
Qed.

Lemma plants_within_area_witness :
  total (plants_of by_count_desc "Cyanides" Samples.one_year_tidy)
  = List.length (select (fun r => present (Tidy.Plant r))
                   (of_area "Cyanides" Samples.one_year_tidy))
  /\ total (plants_of by_count_desc "Cyanides" Samples.one_year_tidy)
     <= count_rows Tidy.Area "Cyanides" Samples.one_year_tidy.
Proof.
  apply (plants_within_area by_count_desc "Cyanides" Samples.one_year_tidy).
  exact CountFacts.by_count_desc_perm.
Defined.

(** X17.  Neither the year nor the identifier of a normalised record
    contains the separator. *)
Theorem parts_without_separator :
  forall rows out i r',
    normalise (read_csv rows) = Ok out -> In (i, r') out ->
    (forall yr, Tidy.Mod_Yr r' = Some yr -> count_char "-" yr = 0)
    /\ (forall id, Tidy.Mod_Id r' = Some id -> count_char "-" id = 0).
Proof.
  intros rows out i r' Hn Hin.
  apply (NormaliseFacts.normalise_rows rows out Hn) in Hin.
  destruct Hin as [r [_ [_ ->]]].
  split; intros p Hp; exact (MiscFacts.part_clean _ _ p Hp).
Qed.

Lemma parts_without_separator_witness :
  (forall yr,
      Tidy.Mod_Yr (tidy (Samples.active "2019-0001" "Cyanides" "CYN1"
                           "5228285")) = Some yr ->
      count_char "-" yr = 0)
  /\ (forall id,
        Tidy.Mod_Id (tidy (Samples.active "2019-0001" "Cyanides" "CYN1"
                             "5228285")) = Some id ->
        count_char "-" id = 0).
Proof.
  apply (parts_without_separator Samples.scenario Samples.scenario_tidy 0).
  - vm_compute. reflexivity.
  - left. reflexivity.
Defined.

(** ** A fixed area without records *)

Module MissingArea.

(** what a finished loop of lines 161-168 tells *)
Lemma for_each_set_column_inv (wanted : string -> bool)
  (column : string -> list nat) (items : list string)
  (cdf cdf' : counting_frame) :
  for_each (fun cdf item =>
              if wanted item then set_column item (column item) cdf
              else Ok cdf) items cdf
  = Ok cdf' ->
  cdf_rows cdf' = cdf_rows cdf
  /\ (forall item, In item items -> wanted item = true ->
        lookup item (cdf_columns cdf') = Some (column item)
        /\ List.length (column item) = cdf_rows cdf)
  /\ (forall item, ~ In item items \/ wanted item = false ->
        lookup item (cdf_columns cdf') = lookup item (cdf_columns cdf)).
Proof.
  intros H.
  assert (Hlen : forall item, In item items -> wanted item = true ->
                   List.length (column item) = cdf_rows cdf).
  { intros item Hi Hw.
    destruct (Nat.eq_dec (List.length (column item)) (cdf_rows cdf))
      as [E | Hne]; [exact E |].
    rewrite (MatrixFacts.for_each_set_column wanted column items cdf) in H;
      [discriminate |].
    exists item. auto. }
  destruct (JoinFacts.for_each_set_column_ok wanted column items cdf Hlen)
    as [cdf2 [E [Hr [Hin Hout]]]].
  rewrite E in H. injection H as <-.
  split; [exact Hr |]. split; [| exact Hout].
  intros item Hi Hw. split; [apply Hin | apply Hlen]; assumption.
Qed.

Lemma zip3_missing (xs ys zs : list num) :
  Forall is_missing xs \/ Forall is_missing ys \/ Forall is_missing zs ->
  Forall is_missing (zip3 (fun i j k => add_num (add_num i j) k) xs ys zs).
Proof.
  revert ys zs. induction xs as [| x xs IH]; intros ys zs H;
    [constructor |].
  destruct ys as [| y ys]; [constructor |].
  destruct zs as [| z zs]; [constructor |].
  cbn [zip3]. constructor.
  - unfold is_missing.
    destruct x as [x |], y as [y |], z as [z |]; cbn [add_num];
      try reflexivity.
    exfalso.
    destruct H as [H | [H | H]]; inversion H as [| ? ? Hv _];
      discriminate Hv.
  - apply IH.
    destruct H as [H | [H | H]]; inversion H; subst; auto.
Qed.

Lemma scale_missing (col : list num) :
  forall tl d, Forall is_missing tl -> scale col tl = Ok d ->
               Forall is_missing d.
Proof.
  induction col as [| i col IH]; intros tl d Ht H.
  - injection H as <-. constructor.
  - destruct tl as [| t tl]; [injection H as <-; constructor |].
    rewrite PercentFacts.scale_cons in H.
    inversion Ht as [| ? ? Hv Ht']; subst. unfold is_missing in Hv. subst t.
    cbn [percent_cell bind] in H.
    destruct (scale col tl) as [ys |] eqn:E; cbn [bind] in H;
      [| discriminate].
    injection H as <-. constructor; [reflexivity |].
    apply (IH tl ys Ht' E).
Qed.

Lemma missing_nth (l : list num) (k : nat) (v : num) :
  Forall is_missing l -> nth_error l k = Some v -> v = None.
Proof.
  intros F H. apply nth_error_In in H. rewrite Forall_forall in F.
  apply F. exact H.
Qed.

Lemma repeat_missing (n : nat) : Forall is_missing (repeat (None : num) n).
Proof.
  apply Forall_forall. intros v Hv. apply repeat_spec in Hv. exact Hv.
Qed.

Lemma reindex_columns (cdf : counting_frame) :
  reindex cdf
  = fixed_areas (column_of cdf "Methacrylates") (column_of cdf "Cyanides")
      (column_of cdf "MM8").
Proof. reflexivity. Qed.

End MissingArea.

(** X18.  When the matrix is built although one of the three fixed areas
    has no record at all, that area gets a column of missing values at
    line 172, every row total of line 180 is missing, and lines 181-183 end
    without an exception with every percentage missing (provided no area
    outside the fixed three and Services occurs). *)
Theorem missing_area_gives_missing_percentages :
  forall (sort_values : table -> table) (df : frame Tidy.row)
         (cdf : counting_frame) (title : string),
    (forall t, Permutation (sort_values t) t) ->
    build_cdf sort_values df = Ok cdf ->
    In title column_titles -> count_rows Tidy.Area title df = 0 ->
    (forall item, 0 < count_rows Tidy.Area item df ->
                  item = "Services" \/ In item column_titles) ->
    exists pct,
      percentages (map fst (value_counts sort_values Tidy.Area df))
        (reindex cdf) = Ok pct
      /\ (forall name k v, cell_at name k pct = Some v -> v = None).
Proof.
  intros sort_values df cdf title Hp Hb Ht Hz Hitems.
  set (items := map fst (value_counts sort_values Tidy.Area df)).
  unfold build_cdf in Hb.
  apply (MissingArea.for_each_set_column_inv
           (fun item => (negb (String.eqb item "Services")
                         && negb PLOT_SERVICES) || PLOT_SERVICES)
           (fun item =>
              map snd (sort_index
                         (value_counts sort_values Tidy.Mod_Yr
                            (of_area item df))))) in Hb.
  destruct Hb as [_ [_ Hout]]. cbn [cdf_columns lookup] in Hout.
  assert (Habsent : forall name, ~ In name items ->
                      Forall is_missing (column_of cdf name)).
  { intros name Hn. unfold column_of. rewrite (Hout name (or_introl Hn)).
    apply MissingArea.repeat_missing. }
  assert (Htitle : Forall is_missing (column_of cdf title)).
  { apply Habsent. intros Hi.
    apply (JoinFacts.in_areas sort_values df title Hp) in Hi. lia. }
  rewrite MissingArea.reindex_columns. unfold percentages.
  rewrite PercentFacts.totals_fixed. cbn [bind].
  set (tl := zip3 (fun i j k => add_num (add_num i j) k)
               (column_of cdf "MM8") (column_of cdf "Methacrylates")
               (column_of cdf "Cyanides")).
  assert (Htl : Forall is_missing tl).
  { apply MissingArea.zip3_missing. cbn [column_titles In] in Ht.
    destruct Ht as [<- | [<- | [<- | []]]]; auto. }
  destruct (PercentFacts.for_each_percent_total tl items) with
    (c1 := column_of cdf "Methacrylates") (c2 := column_of cdf "Cyanides")
    (c3 := column_of cdf "MM8") as [pct E].
  { intros x Hx. apply Hitems.
    apply (JoinFacts.in_areas sort_values df x Hp). exact Hx. }
  { intros k t Hk. apply (MissingArea.missing_nth tl k _ Htl) in Hk.
    discriminate. }
  exists pct. split; [exact E |].
  destruct (PercentFacts.for_each_percent tl items _ _ _ pct
              (proj1 (TableFacts.value_counts_entries sort_values Tidy.Area
                        df Hp)) E)
    as [d1 [d2 [d3 [-> [A1 [B1 [A2 [B2 [A3 B3]]]]]]]]].
  assert (M1 : Forall is_missing d1).
  { destruct (in_dec string_dec "Methacrylates" items) as [Hi | Hi].
    - exact (MissingArea.scale_missing _ tl d1 Htl (A1 Hi)).
    - rewrite (B1 Hi). apply Habsent. exact Hi. }
  assert (M2 : Forall is_missing d2).
  { destruct (in_dec string_dec "Cyanides" items) as [Hi | Hi].
    - exact (MissingArea.scale_missing _ tl d2 Htl (A2 Hi)).
    - rewrite (B2 Hi). apply Habsent. exact Hi. }
  assert (M3 : Forall is_missing d3).
  { destruct (in_dec string_dec "MM8" items) as [Hi | Hi].
    - exact (MissingArea.scale_missing _ tl d3 Htl (A3 Hi)).
    - rewrite (B3 Hi). apply Habsent. exact Hi. }
  intros name k v Hc. unfold cell_at, fixed_areas in Hc. cbn [lookup] in Hc.
  destruct (String.eqb name "Methacrylates");
    [exact (MissingArea.missing_nth d1 k v M1 Hc) |].
  destruct (String.eqb name "Cyanides");
    [exact (MissingArea.missing_nth d2 k v M2 Hc) |].
  destruct (String.eqb name "MM8");
    [exact (MissingArea.missing_nth d3 k v M3 Hc) | discriminate].
Qed.

Lemma missing_area_gives_missing_percentages_witness :
  exists pct,
    percentages
      (map fst (value_counts by_count_desc Tidy.Area
                  Inputs.no_methacrylates_tidy))
      (reindex Inputs.no_methacrylates_cdf) = Ok pct
    /\ (forall name k v, cell_at name k pct = Some v -> v = None).
Proof.
  apply (missing_area_gives_missing_percentages by_count_desc
           Inputs.no_methacrylates_tidy Inputs.no_methacrylates_cdf
           "Methacrylates" CountFacts.by_count_desc_perm).
  - vm_compute. reflexivity.
  - left. reflexivity.
  - reflexivity.
  - intros item Hi.
    apply JoinFacts.count_rows_found in Hi. destruct Hi as [i [r [Hin Ha]]].
    vm_compute in Hin.
    repeat (destruct Hin as [Hin | Hin];
            [injection Hin as _ <-; cbn [Tidy.Area] in Ha;
             injection Ha as <-; right; cbn; tauto |]).
    destruct Hin.
Defined.

(** ** The range of a percentage *)

Module PercentBounds.







End PercentBounds.



(** X20.  The cleanup of lines 116-123 leaves a cell as it is when the
    cell begins with a letter other than n and N, with a digit or with the
    underscore, is none of the four placeholder tokens and does not
    consist of zeros only (a character other than [0] and the line break
    occurs in it). *)
Theorem cleanup_keeps_codes :
  forall (c : ascii) (t : string),
    Chars.is_word c = true -> Spec.is_n c = false ->
    Spec.placeholder (String c t) = false ->
    Spec.has (fun x => negb (Ascii.eqb "0" x)
                       && negb (Ascii.eqb x Chars.newline)) (String c t)
    = true ->
    cleanup_cell (Some (String c t)) = Some (String c t).
Proof.
  intros c t Hw Hn Hp Hz. rewrite CleanupFacts.cleanup_cell_spec.
  rewrite (CleanupEdges.word_first_kept c t Hw Hn Hp Hz). reflexivity.
Qed.

Lemma cleanup_keeps_codes_witness :
  cleanup_cell (Some "ACH8") = Some "ACH8".
Proof.
  apply (cleanup_keeps_codes "A" "CH8"); reflexivity.
Defined.
